(** * Digital library: the content catalogue and its service layer

    A shallow embedding of [app/models.py] and [app/content_service.py].
    Tables are lists of rows in insertion order, the ORM session is a
    record threaded through a small state-and-exception monad, and every
    service method is a function from the stored state to an outcome and
    the stored state afterwards. *)

From Stdlib Require Import ZArith Ascii String.
From stdpp Require Import base decidable option list sorting gmap strings.

Local Open Scope Z_scope.

(** ** Enumerations ([models.py], lines 8-23) *)

Inductive ContentType := BOOK | ARTICLE | MAGAZINE | MULTIMEDIA.

Inductive ContentStatus := AVAILABLE | CHECKED_OUT | RESERVED | MAINTENANCE.

#[global] Instance ContentType_eq_dec : EqDecision ContentType.
Proof. solve_decision. Defined.

#[global] Instance ContentStatus_eq_dec : EqDecision ContentStatus.
Proof. solve_decision. Defined.

Definition ContentType_to_nat (t : ContentType) : nat :=
  match t with BOOK => 0 | ARTICLE => 1 | MAGAZINE => 2 | MULTIMEDIA => 3 end%nat.

Definition ContentType_of_nat (n : nat) : option ContentType :=
  match n with
  | 0 => Some BOOK | 1 => Some ARTICLE | 2 => Some MAGAZINE | 3 => Some MULTIMEDIA
  | _ => None
  end%nat.

#[global] Instance ContentType_countable : Countable ContentType.
Proof.
  apply (inj_countable ContentType_to_nat ContentType_of_nat).
  by intros [].
Defined.

(** Iterating over the enumeration class visits its members in the order
    of declaration. *)
Definition ContentType_members : list ContentType :=
  [BOOK; ARTICLE; MAGAZINE; MULTIMEDIA].

(** ** Rows ([models.py])

    A [datetime] is a count of microseconds; JSON values of the metadata
    dictionary are kept as their text. *)

Definition datetime := Z.

Record ContentAuthor := mkContentAuthor {
  ca_content_id : Z;
  ca_author_id : Z
}.

Record ContentCategory := mkContentCategory {
  cc_content_id : Z;
  cc_category_id : Z
}.

Record Content := mkContent {
  id : option Z;
  title : string;
  description : string;
  content_type : ContentType;
  status : ContentStatus;
  isbn : option string;
  language : string;
  publication_date : option datetime;
  created_at : datetime;
  updated_at : datetime;
  tags : list string;
  content_metadata : gmap string string
}.

Record Book := mkBook {
  book_id : option Z;
  book_content_id : Z;
  page_count : option Z;
  book_publisher : string;
  edition : string;
  format : string
}.

Record Article := mkArticle {
  article_id : option Z;
  article_content_id : Z;
  journal_name : string;
  volume : option string;
  issue : option string;
  page_range : option string;
  doi : option string
}.

Record Magazine := mkMagazine {
  magazine_id : option Z;
  magazine_content_id : Z;
  issue_number : string;
  frequency : string;
  magazine_publisher : string
}.

Record Multimedia := mkMultimedia {
  multimedia_id : option Z;
  multimedia_content_id : Z;
  media_type : string;
  duration_minutes : option Z;
  file_format : option string;
  file_size_mb : option Z
}.

Record Author := mkAuthor {
  author_id : option Z;
  first_name : string;
  last_name : string;
  biography : string;
  birth_date : option datetime;
  website : option string
}.

Record Category := mkCategory {
  category_id : option Z;
  name : string;
  category_description : string;
  parent_id : option Z
}.

(** Schemas that are not tables. *)

Record ContentCreate := mkContentCreate {
  new_title : string;
  new_description : string;
  new_content_type : ContentType;
  new_isbn : option string;
  new_language : string;
  new_publication_date : option datetime;
  new_tags : list string;
  new_content_metadata : gmap string string
}.

Record BookCreate := mkBookCreate {
  new_page_count : option Z;
  new_publisher : string;
  new_edition : string;
  new_format : string
}.

(** ** The stored state

    One list of rows per table the services touch.  Two properties of the
    storage engine are part of the state, because engines differ on them:
    [foreign_keys] says whether foreign keys are checked when a row is
    written (primary keys and unique columns always are), and
    [strict_limit] says whether a negative LIMIT is refused (otherwise it
    means no limit). *)

Record Database := mkDatabase {
  foreign_keys : bool;
  strict_limit : bool;
  content : list Content;
  books : list Book;
  articles : list Article;
  magazines : list Magazine;
  multimedia : list Multimedia;
  authors : list Author;
  categories : list Category;
  content_authors : list ContentAuthor;
  content_categories : list ContentCategory
}.

(** ** Storage errors and outcomes of a call *)

Inductive DbError :=
  | UniqueViolation (table : string)
  | ForeignKeyViolation (table : string)
  | DataError.

Inductive Outcome (A : Type) :=
  | Returned (a : A)
  | Raised (e : DbError).

Arguments Returned {A} a.
Arguments Raised {A} e.

(** ** Writing rows: what the storage engine checks *)

(** A generated key is one past the largest key of the table. *)
Definition fresh_id (keys : list Z) : Z := 1 + foldr Z.max 0 keys.

Definition content_ids (db : Database) : list Z := omap id (content db).
Definition author_ids_of (db : Database) : list Z := omap author_id (authors db).
Definition category_ids_of (db : Database) : list Z := omap category_id (categories db).

Definition set_content (rows : list Content) (db : Database) : Database :=
  {| foreign_keys := foreign_keys db; strict_limit := strict_limit db;
     content := rows; books := books db;
     articles := articles db; magazines := magazines db;
     multimedia := multimedia db; authors := authors db;
     categories := categories db; content_authors := content_authors db;
     content_categories := content_categories db |}.

Definition set_books (rows : list Book) (db : Database) : Database :=
  {| foreign_keys := foreign_keys db; strict_limit := strict_limit db;
     content := content db; books := rows;
     articles := articles db; magazines := magazines db;
     multimedia := multimedia db; authors := authors db;
     categories := categories db; content_authors := content_authors db;
     content_categories := content_categories db |}.

Definition set_content_authors (rows : list ContentAuthor) (db : Database) : Database :=
  {| foreign_keys := foreign_keys db; strict_limit := strict_limit db;
     content := content db; books := books db;
     articles := articles db; magazines := magazines db;
     multimedia := multimedia db; authors := authors db;
     categories := categories db; content_authors := rows;
     content_categories := content_categories db |}.

Definition set_content_categories (rows : list ContentCategory) (db : Database) : Database :=
  {| foreign_keys := foreign_keys db; strict_limit := strict_limit db;
     content := content db; books := books db;
     articles := articles db; magazines := magazines db;
     multimedia := multimedia db; authors := authors db;
     categories := categories db; content_authors := content_authors db;
     content_categories := rows |}.

Definition with_id (k : Z) (c : Content) : Content :=
  {| id := Some k; title := title c; description := description c;
     content_type := content_type c; status := status c; isbn := isbn c;
     language := language c; publication_date := publication_date c;
     created_at := created_at c; updated_at := updated_at c;
     tags := tags c; content_metadata := content_metadata c |}.

Definition with_content_type (t : ContentType) (c : Content) : Content :=
  {| id := id c; title := title c; description := description c;
     content_type := t; status := status c; isbn := isbn c;
     language := language c; publication_date := publication_date c;
     created_at := created_at c; updated_at := updated_at c;
     tags := tags c; content_metadata := content_metadata c |}.

Definition with_status (st : ContentStatus) (c : Content) : Content :=
  {| id := id c; title := title c; description := description c;
     content_type := content_type c; status := st; isbn := isbn c;
     language := language c; publication_date := publication_date c;
     created_at := created_at c; updated_at := updated_at c;
     tags := tags c; content_metadata := content_metadata c |}.

Definition with_updated_at (t : datetime) (c : Content) : Content :=
  {| id := id c; title := title c; description := description c;
     content_type := content_type c; status := status c; isbn := isbn c;
     language := language c; publication_date := publication_date c;
     created_at := created_at c; updated_at := t;
     tags := tags c; content_metadata := content_metadata c |}.

Definition with_book_id (k : Z) (b : Book) : Book :=
  {| book_id := Some k; book_content_id := book_content_id b;
     page_count := page_count b; book_publisher := book_publisher b;
     edition := edition b; format := format b |}.

(** INSERT INTO content: the key is generated when the object has none;
    the primary key is unique. *)
Definition insert_content (c : Content) (db : Database) : DbError + (Z * Database) :=
  let k := default (fresh_id (content_ids db)) (id c) in
  if bool_decide (k ∈ content_ids db) then inl (UniqueViolation "content")
  else inr (k, set_content (content db ++ [with_id k c]) db).

(** UPDATE content SET ... WHERE id = k, with the values of [c]. *)
Definition update_content (c : Content) (db : Database) : Database :=
  set_content
    ((λ r, if bool_decide (id r = id c) then c else r) <$> content db) db.

(** INSERT INTO books: [content_id] is unique and references content.id. *)
Definition insert_book (b : Book) (db : Database) : DbError + Database :=
  if bool_decide (book_content_id b ∈ book_content_id <$> books db)
  then inl (UniqueViolation "books")
  else if foreign_keys db && bool_decide (book_content_id b ∉ content_ids db)
  then inl (ForeignKeyViolation "books")
  else
    let k := default (fresh_id (omap book_id (books db))) (book_id b) in
    if bool_decide (k ∈ omap book_id (books db)) then inl (UniqueViolation "books")
    else inr (set_books (books db ++ [with_book_id k b]) db).

#[global] Instance ContentAuthor_eq_dec : EqDecision ContentAuthor.
Proof. solve_decision. Defined.

#[global] Instance ContentCategory_eq_dec : EqDecision ContentCategory.
Proof. solve_decision. Defined.

(** INSERT INTO content_authors: the pair is the primary key, and each
    half references its table. *)
Definition insert_content_author (ca : ContentAuthor) (db : Database) : DbError + Database :=
  if bool_decide (ca ∈ content_authors db)
  then inl (UniqueViolation "content_authors")
  else if foreign_keys db &&
          bool_decide (ca_content_id ca ∉ content_ids db ∨
                       ca_author_id ca ∉ author_ids_of db)
  then inl (ForeignKeyViolation "content_authors")
  else inr (set_content_authors (content_authors db ++ [ca]) db).

(** INSERT INTO content_categories, likewise. *)
Definition insert_content_category (cc : ContentCategory) (db : Database) : DbError + Database :=
  if bool_decide (cc ∈ content_categories db)
  then inl (UniqueViolation "content_categories")
  else if foreign_keys db &&
          bool_decide (cc_content_id cc ∉ content_ids db ∨
                       cc_category_id cc ∉ category_ids_of db)
  then inl (ForeignKeyViolation "content_categories")
  else inr (set_content_categories (content_categories db ++ [cc]) db).

(** ** The ORM session

    Content objects live in [objects] and are named by their index, so
    that the session and the local variable of the calling method see the
    same object.  [pending] is the unit of work, in the order of the
    [session.add] calls.  [txn] is the state as the open transaction sees
    it, [durable] is what has been committed. *)

Inductive Pending :=
  | InsertContent (h : nat)
  | UpdateContent (h : nat)
  | InsertBook (b : Book)
  | InsertContentAuthor (ca : ContentAuthor)
  | InsertContentCategory (cc : ContentCategory).

Record Session := mkSession {
  durable : Database;
  txn : Database;
  objects : list Content;
  pending : list Pending
}.

Definition M (A : Type) : Type := Session → Outcome A * Session.

#[global] Instance M_ret : MRet M := λ A a s, (Returned a, s).

#[global] Instance M_bind : MBind M := λ A B f m s,
  match m s with
  | (Returned a, s') => f a s'
  | (Raised e, s') => (Raised e, s')
  end.

Definition raise {A} (e : DbError) : M A := λ s, (Raised e, s).

(** try: [body] except Exception as e: [handler e] *)
Definition try_except {A} (body : M A) (handler : DbError → M A) : M A := λ s,
  match body s with
  | (Returned a, s') => (Returned a, s')
  | (Raised e, s') => handler e s'
  end.

(** Writing one pending item into the open transaction. *)
Definition flush_one (p : Pending) (objs : list Content) (db : Database)
    : DbError + (list Content * Database) :=
  match p with
  | InsertContent h =>
      match objs !! h with
      | None => inr (objs, db)
      | Some c =>
          match insert_content c db with
          | inl e => inl e
          | inr (k, db') => inr (<[h := with_id k c]> objs, db')
          end
      end
  | UpdateContent h =>
      match objs !! h with
      | None => inr (objs, db)
      | Some c => inr (objs, update_content c db)
      end
  | InsertBook b =>
      match insert_book b db with
      | inl e => inl e
      | inr db' => inr (objs, db')
      end
  | InsertContentAuthor ca =>
      match insert_content_author ca db with
      | inl e => inl e
      | inr db' => inr (objs, db')
      end
  | InsertContentCategory cc =>
      match insert_content_category cc db with
      | inl e => inl e
      | inr db' => inr (objs, db')
      end
  end.

Fixpoint flush_all (ps : list Pending) (objs : list Content) (db : Database)
    : DbError + (list Content * Database) :=
  match ps with
  | [] => inr (objs, db)
  | p :: ps' =>
      match flush_one p objs db with
      | inl e => inl e
      | inr (objs', db') => flush_all ps' objs' db'
      end
  end.

(** session.flush(): the unit of work is written in one piece; on an
    error the engine keeps none of it, the error is raised, and the unit
    of work stays pending until the session is rolled back. *)
Definition flush : M () := λ s,
  match flush_all (pending s) (objects s) (txn s) with
  | inl e => (Raised e, s)
  | inr (objs, db) =>
      (Returned (), {| durable := durable s; txn := db; objects := objs; pending := [] |})
  end.

(** The storage engine's COMMIT. *)
Definition make_durable : M () := λ s,
  (Returned (), {| durable := txn s; txn := txn s;
                   objects := objects s; pending := [] |}).

(** session.commit(): flush, then make the transaction durable. *)
Definition commit : M () := flush ;; make_durable.

(** session.rollback(): drop the unit of work and the open transaction. *)
Definition rollback : M () := λ s,
  (Returned (), {| durable := durable s; txn := durable s;
                   objects := objects s; pending := [] |}).

(** A new Python object, not yet known to the session. *)
Definition new_object (c : Content) : M nat := λ s,
  (Returned (length (objects s)),
   {| durable := durable s; txn := txn s;
      objects := objects s ++ [c]; pending := pending s |}).

(** Reading and assigning attributes of an object. *)
Definition deref (h : nat) : M (option Content) := λ s, (Returned (objects s !! h), s).

Definition assign (h : nat) (f : Content → Content) : M () := λ s,
  (Returned (), {| durable := durable s; txn := txn s;
                   objects := alter f h (objects s); pending := pending s |}).

(** session.add(obj) *)
Definition add (p : Pending) : M () := λ s,
  (Returned (), {| durable := durable s; txn := txn s;
                   objects := objects s; pending := pending s ++ [p] |}).

(** session.exec(stmt): pending work is flushed first, then the statement
    reads the open transaction. *)
Definition run_stmt {A} (stmt : Database → A) : M A := λ s,
  (Returned (stmt (txn s)), s).

Definition exec {A} (stmt : Database → A) : M A := flush ;; run_stmt stmt.

(** SELECT ... FROM content WHERE id = k *)
Definition select_content_by_id (k : Z) (db : Database) : option Content :=
  head (filter (λ c, id c = Some k) (content db)).

(** session.get(Content, k): the row, loaded as an object of the session. *)
Definition session_get (k : Z) : M (option nat) := λ s,
  match select_content_by_id k (txn s) with
  | None => (Returned None, s)
  | Some c =>
      (Returned (Some (length (objects s))),
       {| durable := durable s; txn := txn s;
          objects := objects s ++ [c]; pending := pending s |})
  end.

(** session.refresh(obj): reload the attributes from the row with the
    object's key. *)
Definition refresh (h : nat) : M () := λ s,
  match objects s !! h with
  | Some c =>
      match id c with
      | Some k =>
          match select_content_by_id k (txn s) with
          | Some row =>
              (Returned (), {| durable := durable s; txn := txn s;
                               objects := <[h := row]> (objects s);
                               pending := pending s |})
          | None => (Returned (), s)
          end
      | None => (Returned (), s)
      end
  | None => (Returned (), s)
  end.

(** Modelled from the spec: [get_session] of [app/database.py], which is
    not among the sources.  The storage gateway hands out a session on the
    stored state; the [with] block is a scoped transaction, so whatever
    has not been committed when the block is left, by return or by an
    exception, is rolled back. *)
Definition get_session {A} (body : M A) (db : Database) : Outcome A * Database :=
  let '(r, s) := body {| durable := db; txn := db; objects := []; pending := [] |} in
  (r, durable s).

(** A service method called from inside a [with] block opens a session of
    its own on the committed state. *)
Definition call {A} (method : Database → Outcome A * Database) : M A := λ s,
  let '(r, db) := method (durable s) in
  (r, {| durable := db; txn := txn s; objects := objects s; pending := pending s |}).

(** ** Text matching: [col.ilike(f"%{query}%")]

    Strings are sequences of 8-bit characters; letter case is that of the
    ASCII letters.  In a LIKE pattern [%] stands for any run of characters
    and [_] for any one character; there is no escape character unless
    the statement names one, and these statements do not. *)

Definition lower_ascii (c : ascii) : ascii :=
  let n := nat_of_ascii c in
  if (65 <=? n)%nat && (n <=? 90)%nat then ascii_of_nat (n + 32) else c.

Definition lower (s : list ascii) : list ascii := lower_ascii <$> s.

Definition percent : ascii := "%"%char.
Definition underscore : ascii := "_"%char.

Fixpoint like (pat : list ascii) : list ascii → bool :=
  match pat with
  | [] => λ s, match s with [] => true | _ => false end
  | p :: pat' =>
      if bool_decide (p = percent) then
        fix any_run (s : list ascii) : bool :=
          like pat' s || (match s with [] => false | _ :: s' => any_run s' end)
      else if bool_decide (p = underscore) then
        λ s, match s with [] => false | _ :: s' => like pat' s' end
      else
        λ s, match s with
             | [] => false
             | c :: s' => bool_decide (p = c) && like pat' s'
             end
  end.

Definition ilike (column pattern : string) : bool :=
  like (lower (list_ascii_of_string pattern)) (lower (list_ascii_of_string column)).

(** f"%{query}%" *)
Definition contains_pattern (query : string) : string :=
  ("%" ++ query ++ "%")%string.

(** A Python string is true when it is not empty. *)
Definition truthy (s : string) : bool :=
  match s with EmptyString => false | _ => true end.

(** ** Ordering and LIMIT *)

Definition created_desc (a b : Content) : Prop := created_at b ≤ created_at a.

#[global] Instance created_desc_dec : RelDecision created_desc.
Proof. intros a b. unfold created_desc. apply _. Defined.

(** ORDER BY created_at DESC; rows with equal times keep their order in
    the table. *)
Definition order_by_created_at_desc (rows : list Content) : list Content :=
  merge_sort created_desc rows.

Definition string_le (a b : string) : Prop := String.leb a b = true.

#[global] Instance string_le_dec : RelDecision string_le.
Proof. intros a b. unfold string_le. apply _. Defined.

(** ORDER BY last_name, first_name *)
Definition author_le (a b : Author) : Prop :=
  match String.compare (last_name a) (last_name b) with
  | Lt => True
  | Eq => string_le (first_name a) (first_name b)
  | Gt => False
  end.

#[global] Instance author_le_dec : RelDecision author_le.
Proof.
  intros a b. unfold author_le.
  destruct (String.compare (last_name a) (last_name b)); apply _.
Defined.

(** ORDER BY name *)
Definition category_le (a b : Category) : Prop := string_le (name a) (name b).

#[global] Instance category_le_dec : RelDecision category_le.
Proof. intros a b. unfold category_le. apply _. Defined.

(** LIMIT n on an engine that accepts it. *)
Definition limit_rows {A} (n : Z) (rows : list A) : list A :=
  if bool_decide (n < 0) then rows else take (Z.to_nat n) rows.

Definition run_limited {A} (stmt : Database → list A) (n : Z) : M (list A) := λ s,
  if strict_limit (txn s) && bool_decide (n < 0) then (Raised DataError, s)
  else (Returned (limit_rows n (stmt (txn s))), s).

(** session.exec of a statement that ends in [.limit(n)]. *)
Definition exec_limited {A} (stmt : Database → list A) (n : Z) : M (list A) :=
  flush ;; run_limited stmt n.

(** ** ContentService ([content_service.py], lines 26-204) *)

Module ContentService.

(** The WHERE clauses of [search_content], applied in the order of the
    source. *)
Definition search_rows (query : string) (type_filter : option ContentType)
    (available_only : bool) (db : Database) : list Content :=
  let stmt := content db in
  let stmt :=
    if truthy query then
      filter (λ c, ilike (title c) (contains_pattern query) = true ∨
                   ilike (description c) (contains_pattern query) = true) stmt
    else stmt in
  let stmt :=
    match type_filter with
    | Some t => filter (λ c, content_type c = t) stmt
    | None => stmt
    end in
  let stmt :=
    if available_only then filter (λ c, status c = AVAILABLE) stmt else stmt in
  order_by_created_at_desc stmt.

Definition search_content (query : string) (type_filter : option ContentType)
    (available_only : bool) (limit : Z) : Database → Outcome (list Content) * Database :=
  get_session (exec_limited (search_rows query type_filter available_only) limit).

Definition get_content_by_id (content_id : Z) : Database → Outcome (option Content) * Database :=
  get_session (
    h ← session_get content_id;
    match h with
    | None => mret None
    | Some h => deref h
    end).

Definition get_books (limit : Z) : Database → Outcome (list Content) * Database :=
  get_session (
    exec_limited
      (λ db, order_by_created_at_desc (filter (λ c, content_type c = BOOK) (content db)))
      limit).

(** SELECT authors.* FROM authors JOIN content_authors
    ON authors.id = content_authors.author_id
    WHERE content_authors.content_id = k *)
Definition select_content_authors (k : Z) (db : Database) : list Author :=
  a ← authors db;
  ca ← content_authors db;
  if bool_decide (author_id a = Some (ca_author_id ca) ∧ ca_content_id ca = k)
  then [a] else [].

Definition select_content_categories (k : Z) (db : Database) : list Category :=
  c ← categories db;
  cc ← content_categories db;
  if bool_decide (category_id c = Some (cc_category_id cc) ∧ cc_content_id cc = k)
  then [c] else [].

Definition get_content_authors (content_id : Z) : Database → Outcome (list Author) * Database :=
  get_session (exec (select_content_authors content_id)).

Definition get_content_categories (content_id : Z) : Database → Outcome (list Category) * Database :=
  get_session (exec (select_content_categories content_id)).

(** The dictionary returned by [get_content_with_details]; the extension
    row is one of four kinds. *)
Inductive ExtendedInfo :=
  | BookInfo (b : Book)
  | ArticleInfo (a : Article)
  | MagazineInfo (m : Magazine)
  | MultimediaInfo (m : Multimedia).

Record Details := mkDetails {
  details_content : Content;
  details_authors : list Author;
  details_categories : list Category;
  extended_info : option ExtendedInfo
}.

Definition select_extension (t : ContentType) (k : Z) (db : Database) : option ExtendedInfo :=
  match t with
  | BOOK => BookInfo <$> head (filter (λ b, book_content_id b = k) (books db))
  | ARTICLE => ArticleInfo <$> head (filter (λ a, article_content_id a = k) (articles db))
  | MAGAZINE => MagazineInfo <$> head (filter (λ m, magazine_content_id m = k) (magazines db))
  | MULTIMEDIA => MultimediaInfo <$> head (filter (λ m, multimedia_content_id m = k) (multimedia db))
  end.

Definition get_content_with_details (content_id : Z) : Database → Outcome (option Details) * Database :=
  get_session (
    h ← session_get content_id;
    match h with
    | None => mret None
    | Some h =>
        authors ← call (get_content_authors content_id);
        categories ← call (get_content_categories content_id);
        c ← deref h;
        match c with
        | None => mret None
        | Some c =>
            info ← exec (select_extension (content_type c) content_id);
            mret (Some {| details_content := c; details_authors := authors;
                          details_categories := categories;
                          extended_info := info |})
        end
    end).

(** A Content built from the dump of [content_data]: the fields of the
    schema, and the defaults of the model for the others. *)
Definition Content_of (now : datetime) (d : ContentCreate) : Content :=
  {| id := None; title := new_title d; description := new_description d;
     content_type := new_content_type d; status := AVAILABLE;
     isbn := new_isbn d; language := new_language d;
     publication_date := new_publication_date d;
     created_at := now; updated_at := now;
     tags := new_tags d; content_metadata := new_content_metadata d |}.

(** A Book built from the dump of [book_data] and [content_id = k]. *)
Definition Book_of (d : BookCreate) (k : Z) : Book :=
  {| book_id := None; book_content_id := k; page_count := new_page_count d;
     book_publisher := new_publisher d; edition := new_edition d;
     format := new_format d |}.

(** for x in xs: body x *)
Fixpoint for_each {A} (xs : list A) (body : A → M ()) : M () :=
  match xs with
  | [] => mret ()
  | x :: xs' => body x ;; for_each xs' body
  end.

(** [if ids:] is false for None and for the empty list. *)
Definition if_ids (ids : option (list Z)) (body : list Z → M ()) : M () :=
  match ids with
  | None | Some [] => mret ()
  | Some l => body l
  end.

Definition create_book_body (now : datetime) (content_data : ContentCreate)
    (book_data : BookCreate) (author_ids category_ids : option (list Z))
    : M (option Content) :=
  content ← new_object (Content_of now content_data);
  assign content (with_content_type BOOK) ;;
  add (InsertContent content) ;;
  commit ;;
  refresh content ;;
  c ← deref content;
  match c ≫= id with
  | None => mret None
  | Some k =>
      add (InsertBook (Book_of book_data k)) ;;
      if_ids author_ids (λ l,
        for_each l (λ author_id,
          add (InsertContentAuthor {| ca_content_id := k; ca_author_id := author_id |}))) ;;
      if_ids category_ids (λ l,
        for_each l (λ category_id,
          add (InsertContentCategory {| cc_content_id := k; cc_category_id := category_id |}))) ;;
      commit ;;
      refresh content ;;
      deref content
  end.

Definition create_book (now : datetime) (content_data : ContentCreate)
    (book_data : BookCreate) (author_ids category_ids : option (list Z))
    : Database → Outcome (option Content) * Database :=
  get_session (
    try_except
      (create_book_body now content_data book_data author_ids category_ids)
      (λ e, rollback ;; raise e)).

Definition update_content_status (now : datetime) (content_id : Z) (st : ContentStatus)
    : Database → Outcome bool * Database :=
  get_session (
    h ← session_get content_id;
    match h with
    | None => mret false
    | Some content =>
        assign content (with_status st) ;;
        assign content (with_updated_at now) ;;
        add (UpdateContent content) ;;
        commit ;;
        mret true
    end).

(** SELECT count(content.id) WHERE content_type = t AND status = 'available' *)
Definition count_available (t : ContentType) (db : Database) : option Z :=
  Some (Z.of_nat (length
    (filter (λ c, content_type c = t ∧ status c = AVAILABLE) (content db)))).

(** [count or 0] *)
Definition or_zero (count : option Z) : Z :=
  match count with
  | Some n => if bool_decide (n = 0) then 0 else n
  | None => 0
  end.

Fixpoint count_each (ts : list ContentType) (counts : gmap ContentType Z)
    : M (gmap ContentType Z) :=
  match ts with
  | [] => mret counts
  | t :: ts' =>
      count ← exec (count_available t);
      count_each ts' (<[t := or_zero count]> counts)
  end.

Definition get_available_content_count : Database → Outcome (gmap ContentType Z) * Database :=
  get_session (count_each ContentType_members ∅).

Definition microseconds_per_day : Z := 86400000000.

(** datetime.utcnow().replace(microsecond=0) - timedelta(days=days) *)
Definition cutoff_date (now : datetime) (days : Z) : datetime :=
  now - now `mod` 1000000 - days * microseconds_per_day.

Definition get_recent_content (now : datetime) (days limit : Z)
    : Database → Outcome (list Content) * Database :=
  get_session (
    exec_limited
      (λ db, order_by_created_at_desc
               (filter (λ c, cutoff_date now days ≤ created_at c) (content db)))
      limit).

End ContentService.

(** ** Sessions on the author and category tables

    [create_author] and [create_category] each add one new object of
    their table class to a session, commit, and read the object back.
    What the session needs of a table class is gathered in [Table]. *)

Definition set_authors (rows : list Author) (db : Database) : Database :=
  {| foreign_keys := foreign_keys db; strict_limit := strict_limit db;
     content := content db; books := books db;
     articles := articles db; magazines := magazines db;
     multimedia := multimedia db; authors := rows;
     categories := categories db; content_authors := content_authors db;
     content_categories := content_categories db |}.

Definition set_categories (rows : list Category) (db : Database) : Database :=
  {| foreign_keys := foreign_keys db; strict_limit := strict_limit db;
     content := content db; books := books db;
     articles := articles db; magazines := magazines db;
     multimedia := multimedia db; authors := authors db;
     categories := rows; content_authors := content_authors db;
     content_categories := content_categories db |}.

Definition with_author_id (k : Z) (a : Author) : Author :=
  {| author_id := Some k; first_name := first_name a; last_name := last_name a;
     biography := biography a; birth_date := birth_date a; website := website a |}.

Definition with_category_id (k : Z) (c : Category) : Category :=
  {| category_id := Some k; name := name c;
     category_description := category_description c; parent_id := parent_id c |}.

(** INSERT INTO authors: the key is generated when the object has none;
    nothing but the primary key is unique. *)
Definition insert_author (a : Author) (db : Database) : DbError + (Z * Database) :=
  let k := default (fresh_id (author_ids_of db)) (author_id a) in
  if bool_decide (k ∈ author_ids_of db) then inl (UniqueViolation "authors")
  else inr (k, set_authors (authors db ++ [with_author_id k a]) db).

(** INSERT INTO categories: [name] is unique, and [parent_id], when
    there is one, references categories.id. *)
Definition insert_category (c : Category) (db : Database) : DbError + (Z * Database) :=
  if bool_decide (name c ∈ name <$> categories db)
  then inl (UniqueViolation "categories")
  else if foreign_keys db &&
          match parent_id c with
          | Some p => bool_decide (p ∉ category_ids_of db)
          | None => false
          end
  then inl (ForeignKeyViolation "categories")
  else
    let k := default (fresh_id (category_ids_of db)) (category_id c) in
    if bool_decide (k ∈ category_ids_of db) then inl (UniqueViolation "categories")
    else inr (k, set_categories (categories db ++ [with_category_id k c]) db).

(** SELECT ... WHERE id = k *)
Definition select_author_by_id (k : Z) (db : Database) : option Author :=
  head (filter (λ a, author_id a = Some k) (authors db)).

Definition select_category_by_id (k : Z) (db : Database) : option Category :=
  head (filter (λ c, category_id c = Some k) (categories db)).

Class Table (Row : Type) := {
  row_key : Row → option Z;
  with_row_key : Z → Row → Row;
  insert_row : Row → Database → DbError + (Z * Database);
  select_row : Z → Database → option Row
}.

#[global] Instance Author_table : Table Author := {|
  row_key := author_id;
  with_row_key := with_author_id;
  insert_row := insert_author;
  select_row := select_author_by_id
|}.

#[global] Instance Category_table : Table Category := {|
  row_key := category_id;
  with_row_key := with_category_id;
  insert_row := insert_category;
  select_row := select_category_by_id
|}.

(** The session: objects named by their index, and the indices of the
    objects added and not yet written. *)
Record TableSession (Row : Type) := mkTableSession {
  table_durable : Database;
  table_txn : Database;
  table_objects : list Row;
  table_pending : list nat
}.

Arguments mkTableSession {Row}.
Arguments table_durable {Row}.
Arguments table_txn {Row}.
Arguments table_objects {Row}.
Arguments table_pending {Row}.

Definition TM (Row A : Type) : Type :=
  TableSession Row → Outcome A * TableSession Row.

#[global] Instance TM_ret Row : MRet (TM Row) := λ A a s, (Returned a, s).

#[global] Instance TM_bind Row : MBind (TM Row) := λ A B f m s,
  match m s with
  | (Returned a, s') => f a s'
  | (Raised e, s') => (Raised e, s')
  end.

Fixpoint flush_rows `{Table Row} (ps : list nat) (objs : list Row) (db : Database)
    : DbError + (list Row * Database) :=
  match ps with
  | [] => inr (objs, db)
  | h :: ps' =>
      match objs !! h with
      | None => flush_rows ps' objs db
      | Some r =>
          match insert_row r db with
          | inl e => inl e
          | inr (k, db') => flush_rows ps' (<[h := with_row_key k r]> objs) db'
          end
      end
  end.

(** A new Python object, not yet known to the session. *)
Definition new_row_object {Row} (r : Row) : TM Row nat := λ s,
  (Returned (length (table_objects s)),
   {| table_durable := table_durable s; table_txn := table_txn s;
      table_objects := table_objects s ++ [r]; table_pending := table_pending s |}).

(** session.add(obj) *)
Definition add_row {Row} (h : nat) : TM Row () := λ s,
  (Returned (),
   {| table_durable := table_durable s; table_txn := table_txn s;
      table_objects := table_objects s; table_pending := table_pending s ++ [h] |}).

(** session.commit(): the pending rows are written and made durable; on
    an error nothing of them is kept and the error is raised. *)
Definition commit_rows `{Table Row} : TM Row () := λ s,
  match flush_rows (table_pending s) (table_objects s) (table_txn s) with
  | inl e => (Raised e, s)
  | inr (objs, db) =>
      (Returned (),
       {| table_durable := db; table_txn := db; table_objects := objs;
          table_pending := [] |})
  end.

(** session.refresh(obj) *)
Definition refresh_row `{Table Row} (h : nat) : TM Row () := λ s,
  match table_objects s !! h with
  | Some r =>
      match row_key r with
      | Some k =>
          match select_row k (table_txn s) with
          | Some row =>
              (Returned (),
               {| table_durable := table_durable s; table_txn := table_txn s;
                  table_objects := <[h := row]> (table_objects s);
                  table_pending := table_pending s |})
          | None => (Returned (), s)
          end
      | None => (Returned (), s)
      end
  | None => (Returned (), s)
  end.

(** The object a local variable names.  A variable always names an
    object of the session; [unbound] is what an index without an object
    would read. *)
Definition read_row {Row} (h : nat) (unbound : Row) : TM Row Row := λ s,
  (Returned (default unbound (table_objects s !! h)), s).

(** Modelled from the spec: [get_session] of [app/database.py] once more,
    for a session on one table class: a scoped transaction on the stored
    state, of which only what was committed is kept. *)
Definition get_table_session {Row A} (body : TM Row A) (db : Database)
    : Outcome A * Database :=
  let '(r, s) := body {| table_durable := db; table_txn := db;
                         table_objects := []; table_pending := [] |} in
  (r, table_durable s).

(** ** AuthorService and CategoryService (lines 207-272) *)

Module AuthorService.

Definition get_all_authors : Database → Outcome (list Author) * Database :=
  get_session (exec (λ db, merge_sort author_le (authors db))).

Definition search_authors (query : string) : Database → Outcome (list Author) * Database :=
  get_session (
    exec (λ db,
      merge_sort author_le
        (filter (λ a, ilike (first_name a) (contains_pattern query) = true ∨
                      ilike (last_name a) (contains_pattern query) = true)
                (authors db)))).

(** Author(first_name=..., ...) is added, committed and read back. *)
Definition create_author (first_name last_name biography : string)
    (birth_date : option datetime) (website : option string)
    : Database → Outcome Author * Database :=
  let author :=
    {| author_id := None; first_name := first_name; last_name := last_name;
       biography := biography; birth_date := birth_date; website := website |} in
  get_table_session (
    h ← new_row_object author;
    add_row h ;;
    commit_rows ;;
    refresh_row h ;;
    read_row h author).

End AuthorService.

Module CategoryService.

Definition get_all_categories : Database → Outcome (list Category) * Database :=
  get_session (exec (λ db, merge_sort category_le (categories db))).

Definition get_root_categories : Database → Outcome (list Category) * Database :=
  get_session (
    exec (λ db,
      merge_sort category_le (filter (λ c, parent_id c = None) (categories db)))).

Definition create_category (name description : string) (parent_id : option Z)
    : Database → Outcome Category * Database :=
  let category :=
    {| category_id := None; name := name; category_description := description;
       parent_id := parent_id |} in
  get_table_session (
    h ← new_row_object category;
    add_row h ;;
    commit_rows ;;
    refresh_row h ;;
    read_row h category).

End CategoryService.

(** ** Sample data ([sample_data.py])

    The functions of this file call the services one after the other on
    the stored state and catch what they raise.  What they write to the
    log is left out. *)

Definition Store (A : Type) : Type := Database → Outcome A * Database.

#[global] Instance Store_ret : MRet Store := λ A a db, (Returned a, db).

#[global] Instance Store_bind : MBind Store := λ A B f m db,
  match m db with
  | (Returned a, db') => f a db'
  | (Raised e, db') => (Raised e, db')
  end.

(** A call of a service method. *)
Definition service {A} (method : Database → Outcome A * Database) : Store A := method.

(** try: [body] except Exception: [handler] *)
Definition store_try {A} (body : Store A) (handler : DbError → Store A) : Store A := λ db,
  match body db with
  | (Returned a, db') => (Returned a, db')
  | (Raised e, db') => handler e db'
  end.

(** The elements of a list display, evaluated from left to right. *)
Fixpoint each {A B} (f : A → Store B) (xs : list A) : Store (list B) :=
  match xs with
  | [] => mret []
  | x :: xs' => y ← f x; ys ← each f xs'; mret (y :: ys)
  end.

(** datetime(year, month, day): midnight of that day, counted in
    microseconds from the first day of year 1, as the ordinals of Python's
    [datetime] are. *)
Definition is_leap (year : Z) : bool :=
  (year `mod` 4 =? 0) && (negb (year `mod` 100 =? 0) || (year `mod` 400 =? 0)).

Definition days_before_year (year : Z) : Z :=
  let y := year - 1 in y * 365 + y `div` 4 - y `div` 100 + y `div` 400.

Definition days_before_month (year month : Z) : Z :=
  nth (Z.to_nat month) [0; 0; 31; 59; 90; 120; 151; 181; 212; 243; 273; 304; 334] 0 +
  (if (2 <? month) && is_leap year then 1 else 0).

Definition datetime_ymd (year month day : Z) : datetime :=
  (days_before_year year + days_before_month year month + day - 1) *
  86400000000.

Module SampleData.

Import ContentService AuthorService CategoryService.

Record SampleBook := mkSampleBook {
  sample_content : ContentCreate;
  sample_book : BookCreate;
  author_names : list string;
  category_names : list string
}.

Record Created := mkCreated {
  created_authors : list Author;
  created_categories : list Category;
  created_books : list Content
}.

(** The arguments of the five [create_author] calls. *)
Definition sample_authors : list (string * string * string * datetime) :=
  [ ("Jane", "Austen",
     "English novelist known primarily for her six major novels.",
     datetime_ymd 1775 12 16);
    ("George", "Orwell",
     "English novelist and journalist known for his dystopian works.",
     datetime_ymd 1903 6 25);
    ("Agatha", "Christie",
     "English writer known for her detective novels.",
     datetime_ymd 1890 9 15);
    ("Isaac", "Asimov",
     "American writer and professor of biochemistry, known for science fiction.",
     datetime_ymd 1920 1 2);
    ("Virginia", "Woolf",
     "English writer and modernist pioneer.",
     datetime_ymd 1882 1 25) ]%string.

(** The arguments of the seven [create_category] calls. *)
Definition sample_categories : list (string * string) :=
  [ ("Fiction", "Fictional literature");
    ("Science Fiction", "Speculative fiction with futuristic concepts");
    ("Mystery", "Detective and mystery novels");
    ("Classic Literature", "Timeless literary works");
    ("Dystopian", "Dark future societies");
    ("Romance", "Romantic literature");
    ("Modernist", "Modernist literary movement") ]%string.

Definition sample_content_of (t d : string) (published : datetime) (tags : list string)
    : ContentCreate :=
  {| new_title := t; new_description := d; new_content_type := BOOK;
     new_isbn := None; new_language := "English";
     new_publication_date := Some published; new_tags := tags;
     new_content_metadata := ∅ |}.

Definition sample_book_of (publisher : string) (pages : Z) (fmt : string) : BookCreate :=
  {| new_page_count := Some pages; new_publisher := publisher;
     new_edition := "First Edition"; new_format := fmt |}.

Definition sample_books : list SampleBook :=
  [ {| sample_content :=
         sample_content_of "Pride and Prejudice"
           "A romantic novel that critiques the British landed gentry at the end of the 18th century."
           (datetime_ymd 1813 1 28)
           ["romance"; "social commentary"; "british literature"];
       sample_book := sample_book_of "T. Egerton" 432 "paperback";
       author_names := ["Jane Austen"];
       category_names := ["Fiction"; "Romance"; "Classic Literature"] |};
    {| sample_content :=
         sample_content_of "1984"
           "A dystopian social science fiction novel about totalitarian control and surveillance."
           (datetime_ymd 1949 6 8)
           ["dystopian"; "totalitarianism"; "surveillance"; "political fiction"];
       sample_book := sample_book_of "Secker & Warburg" 328 "hardcover";
       author_names := ["George Orwell"];
       category_names := ["Fiction"; "Dystopian"; "Science Fiction"] |};
    {| sample_content :=
         sample_content_of "Murder on the Orient Express"
           "A detective novel featuring Hercule Poirot solving a murder on a luxury train."
           (datetime_ymd 1934 1 1)
           ["detective"; "murder mystery"; "hercule poirot"];
       sample_book := sample_book_of "Collins Crime Club" 256 "paperback";
       author_names := ["Agatha Christie"];
       category_names := ["Fiction"; "Mystery"] |};
    {| sample_content :=
         sample_content_of "Foundation"
           "The first novel in the Foundation series, exploring a galactic empire's decline and renewal."
           (datetime_ymd 1951 5 1)
           ["space opera"; "galactic empire"; "psychohistory"; "science fiction"];
       sample_book := sample_book_of "Gnome Press" 244 "hardcover";
       author_names := ["Isaac Asimov"];
       category_names := ["Science Fiction"; "Fiction"] |};
    {| sample_content :=
         sample_content_of "To the Lighthouse"
           "A modernist novel exploring the Ramsay family's experiences over a decade."
           (datetime_ymd 1927 5 5)
           ["modernist"; "stream of consciousness"; "family drama"];
       sample_book := sample_book_of "Hogarth Press" 209 "hardcover";
       author_names := ["Virginia Woolf"];
       category_names := ["Fiction"; "Modernist"; "Classic Literature"] |};
    {| sample_content :=
         sample_content_of "Animal Farm"
           "An allegorical novella about farm animals who rebel against their human farmer."
           (datetime_ymd 1945 8 17)
           ["allegory"; "political satire"; "fable"];
       sample_book := sample_book_of "Secker & Warburg" 112 "paperback";
       author_names := ["George Orwell"];
       category_names := ["Fiction"; "Political Satire"] |};
    {| sample_content :=
         sample_content_of "The Robots of Dawn"
           "A science fiction mystery novel featuring detective Elijah Baley and robot R. Daneel."
           (datetime_ymd 1983 10 1)
           ["robots"; "detective story"; "future society"];
       sample_book := sample_book_of "Doubleday" 384 "hardcover";
       author_names := ["Isaac Asimov"];
       category_names := ["Science Fiction"; "Mystery"; "Fiction"] |};
    {| sample_content :=
         sample_content_of "Emma"
           "A novel about Emma Woodhouse, a young woman who meddles in the romantic lives of others."
           (datetime_ymd 1815 12 23)
           ["romance"; "matchmaking"; "social comedy"];
       sample_book := sample_book_of "John Murray" 474 "paperback";
       author_names := ["Jane Austen"];
       category_names := ["Fiction"; "Romance"; "Classic Literature"] |} ]%string.

(** The inner loop over [authors]: the id of the first author of that
    full name that has an id, appended once. *)
Fixpoint first_author_id (author_name : string) (authors : list Author) : list Z :=
  match authors with
  | [] => []
  | author :: rest =>
      let full_name := (first_name author ++ " " ++ last_name author)%string in
      match author_id author with
      | Some k =>
          if bool_decide (full_name = author_name) then [k]
          else first_author_id author_name rest
      | None => first_author_id author_name rest
      end
  end.

Fixpoint first_category_id (category_name : string) (categories : list Category) : list Z :=
  match categories with
  | [] => []
  | category :: rest =>
      match category_id category with
      | Some k =>
          if bool_decide (name category = category_name) then [k]
          else first_category_id category_name rest
      | None => first_category_id category_name rest
      end
  end.

(** The outer loops: one lookup per name, in the order of the names. *)
Definition find_author_ids (names : list string) (authors : list Author) : list Z :=
  n ← names; first_author_id n authors.

Definition find_category_ids (names : list string) (categories : list Category) : list Z :=
  n ← names; first_category_id n categories.

(** [ids if ids else None] *)
Definition ids_or_none (ids : list Z) : option (list Z) :=
  match ids with [] => None | _ => Some ids end.

(** The loop over [sample_books]; [clock i] is the time at which the
    book of index [i] is created. *)
Fixpoint create_books (clock : nat → datetime) (i : nat) (todo : list SampleBook)
    (authors : list Author) (categories : list Category) (created : list Content)
    : Store (list Content) :=
  match todo with
  | [] => mret created
  | book_data :: rest =>
      let author_ids := find_author_ids (author_names book_data) authors in
      let category_ids := find_category_ids (category_names book_data) categories in
      created_book ← service (create_book (clock i) (sample_content book_data)
                                (sample_book book_data)
                                (ids_or_none author_ids) (ids_or_none category_ids));
      create_books clock (S i) rest authors categories
        (match created_book with
         | Some c => created ++ [c]
         | None => created
         end)
  end.

Definition create_sample_data (clock : nat → datetime) : Store (option Created) :=
  store_try
    (authors ← each (λ '(f, l, b, born),
                       service (create_author f l b (Some born) None)) sample_authors;
     categories ← each (λ '(n, d), service (create_category n d None)) sample_categories;
     books ← create_books clock 0 sample_books authors categories [];
     mret (Some {| created_authors := authors; created_categories := categories;
                   created_books := books |}))
    (λ _, mret None).

Definition has_sample_data : Store bool :=
  store_try
    (books ← service (get_books 1);
     mret (bool_decide (0 < length books)%nat))
    (λ _, mret false).

Definition initialize_sample_data_if_needed (clock : nat → datetime) : Store () :=
  found ← has_sample_data;
  if negb found then create_sample_data clock ;; mret () else mret ().

End SampleData.

(** ** The tags of the book form ([content_management.py], [submit_book])

    The form takes the tags as one line of text:
    [[tag.strip() for tag in value.split(",") if tag.strip()]] when the
    line is not empty.  Characters are code points below 256, of which
    Python counts these as white space. *)

Module ContentManagement.

Definition is_space (c : ascii) : bool :=
  let n := nat_of_ascii c in
  ((9 <=? n) && (n <=? 13) || (28 <=? n) && (n <=? 32) ||
   (n =? 133) || (n =? 160))%nat.

Fixpoint lstrip (s : list ascii) : list ascii :=
  match s with
  | [] => []
  | c :: s' => if is_space c then lstrip s' else s
  end.

Definition rstrip (s : list ascii) : list ascii := reverse (lstrip (reverse s)).

(** str.strip() *)
Definition strip (s : list ascii) : list ascii := rstrip (lstrip s).

(** str.split(sep) for a separator of one character: the pieces between
    the separators, one more than there are separators. *)
Fixpoint split (sep : ascii) (s : list ascii) : list (list ascii) :=
  match s with
  | [] => [[]]
  | c :: s' =>
      if bool_decide (c = sep) then [] :: split sep s'
      else
        match split sep s' with
        | piece :: pieces => (c :: piece) :: pieces
        | [] => [[c]]
        end
  end.

Definition comma : ascii := ","%char.

Definition parse_tags (value : string) : list string :=
  if truthy value then
    string_of_list_ascii <$>
      filter (λ tag, tag ≠ []) (strip <$> split comma (list_ascii_of_string value))
  else [].

End ContentManagement.


(** * Statements

    The predicates the properties below are stated with. *)

Import ContentService AuthorService CategoryService.

(** A method that leaves the stored state as it found it. *)
Definition unchanged {A} (method : Database → Outcome A * Database) : Prop :=
  ∀ db, (method db).2 = db.

(** No content row has the key [k]. *)
Definition no_content_row (k : Z) (db : Database) : Prop := k ∉ content_ids db.

(** Every junction row belongs to a stored content row. *)
Definition links_reference_content (db : Database) : Prop :=
  (∀ ca, ca ∈ content_authors db → ca_content_id ca ∈ content_ids db) ∧
  (∀ cc, cc ∈ content_categories db → cc_content_id cc ∈ content_ids db).

(** No junction row belongs to content [k]. *)
Definition no_links (k : Z) (db : Database) : Prop :=
  (∀ ca, ca ∈ content_authors db → ca_content_id ca ≠ k) ∧
  (∀ cc, cc ∈ content_categories db → cc_content_id cc ≠ k).

(** The content table's primary key: no two rows share an id. *)
Definition primary_key_unique (db : Database) : Prop := NoDup (content_ids db).

(** Two content rows that agree on every field but [status] and
    [updated_at]. *)
Definition same_but_status_and_time (c c' : Content) : Prop :=
  id c' = id c ∧ title c' = title c ∧ description c' = description c ∧
  content_type c' = content_type c ∧ isbn c' = isbn c ∧
  language c' = language c ∧ publication_date c' = publication_date c ∧
  created_at c' = created_at c ∧ tags c' = tags c ∧
  content_metadata c' = content_metadata c.

(** The row [c] after [update_content_status]. *)
Definition restamped (now : datetime) (st : ContentStatus) (c : Content) : Content :=
  with_updated_at now (with_status st c).

(** The content table with the row of key [k] restamped, every other row
    as it was and where it was. *)
Definition restamp_row (now : datetime) (k : Z) (st : ContentStatus)
    (rows : list Content) : list Content :=
  (λ r, if bool_decide (id r = Some k) then restamped now st r else r) <$> rows.

(** The filters of [search_content] other than the query: the content
    type when one is given, and the status when only available items are
    asked for. *)
Definition other_filters (type_filter : option ContentType) (available_only : bool)
    (c : Content) : Prop :=
  match type_filter with Some t => content_type c = t | None => True end ∧
  (if available_only then status c = AVAILABLE else True).

#[global] Instance other_filters_dec t a c : Decision (other_filters t a c).
Proof. unfold other_filters. destruct t, a; apply _. Defined.

(** The rows [search_content] selects, before ordering and LIMIT. *)
Definition selected (query : string) (type_filter : option ContentType)
    (available_only : bool) (c : Content) : Prop :=
  (if truthy query
   then ilike (title c) (contains_pattern query) = true ∨
        ilike (description c) (contains_pattern query) = true
   else True) ∧
  other_filters type_filter available_only c.

#[global] Instance selected_dec q t a c : Decision (selected q t a c).
Proof. unfold selected. destruct (truthy q); apply _. Defined.


(** Follows the specification's words, "case-insensitive substring
    match": the query occurs in the text as a run of consecutive
    characters, letter case aside. *)
Fixpoint is_prefix (p s : list ascii) : bool :=
  match p, s with
  | [], _ => true
  | _ :: _, [] => false
  | c :: p', d :: s' => bool_decide (c = d) && is_prefix p' s'
  end.

Fixpoint is_infix (p s : list ascii) : bool :=
  is_prefix p s || (match s with [] => false | _ :: s' => is_infix p s' end).

Definition contains_ci (query text : string) : bool :=
  is_infix (lower (list_ascii_of_string query)) (lower (list_ascii_of_string text)).

(** A query in which no character is a LIKE wildcard. *)
Definition wildcard_free (query : string) : Prop :=
  (percent ∉ list_ascii_of_string query) ∧ (underscore ∉ list_ascii_of_string query).

(** The items the specification has a search return: the query occurs in
    the title or in the description, and the other filters pass. *)
Definition matches (query : string) (type_filter : option ContentType)
    (available_only : bool) (c : Content) : Prop :=
  (contains_ci query (title c) = true ∨ contains_ci query (description c) = true) ∧
  other_filters type_filter available_only c.

#[global] Instance matches_dec q t a c : Decision (matches q t a c).
Proof. unfold matches. apply _. Defined.


(** The ids of an optional argument, none when it is None. *)
Definition id_list (ids : option (list Z)) : list Z := default [] ids.

(** The unit of work of the second commit of [create_book]: the book row,
    then one junction row per author id and per category id. *)
Definition book_work (book_data : BookCreate) (k : Z)
    (author_ids category_ids : option (list Z)) : list Pending :=
  InsertBook (Book_of book_data k) ::
  (InsertContentAuthor ∘ mkContentAuthor k <$> id_list author_ids) ++
  (InsertContentCategory ∘ mkContentCategory k <$> id_list category_ids).

(** A unit of work that only inserts book and junction rows. *)
Definition inserts_only (p : Pending) : Prop :=
  match p with
  | InsertContent _ | UpdateContent _ => False
  | _ => True
  end.

(** The content row [create_book] stores. *)
Definition new_row (now : datetime) (content_data : ContentCreate) (db : Database) : Content :=
  with_id (fresh_id (content_ids db)) (with_content_type BOOK (Content_of now content_data)).

(** The two joins of the service have one shape: rows of a table with an
    optional key, and junction rows that pair a content id with such a
    key.  [join] returns a row once for each junction row of content [k]
    that names it. *)
Definition links_of {Row Link} (row_id : Row → option Z)
    (link_content link_row : Link → Z) (k : Z) (r : Row) (links : list Link) : list Row :=
  l ← links;
  if bool_decide (row_id r = Some (link_row l) ∧ link_content l = k) then [r] else [].

Definition join {Row Link} (row_id : Row → option Z)
    (link_content link_row : Link → Z) (k : Z) (rows : list Row) (links : list Link)
    : list Row :=
  r ← rows; links_of row_id link_content link_row k r links.

(** The book row built from [book_data] for content [k], whatever key it
    was stored under. *)
Definition book_row_of (book_data : BookCreate) (k : Z) (b : Book) : Prop :=
  is_Some (book_id b) ∧ book_content_id b = k ∧
  page_count b = new_page_count book_data ∧
  book_publisher b = new_publisher book_data ∧
  edition b = new_edition book_data ∧ format b = new_format book_data.

(** The keys of the author and category tables are unique. *)
Definition reference_tables_keyed (db : Database) : Prop :=
  NoDup (author_ids_of db) ∧ NoDup (category_ids_of db).

(** The ids handed to [create_book] are keys of stored rows. *)
Definition ids_exist (author_ids category_ids : option (list Z)) (db : Database) : Prop :=
  (∀ i, i ∈ id_list author_ids → i ∈ author_ids_of db) ∧
  (∀ i, i ∈ id_list category_ids → i ∈ category_ids_of db).

(** ** Example data

    The scenario of the specification: an author, a category, and the
    data of one book. *)

Definition jane_austen : Author :=
  {| author_id := Some 1; first_name := "Jane"; last_name := "Austen";
     biography := ""; birth_date := None; website := None |}.

Definition fiction : Category :=
  {| category_id := Some 1; name := "Fiction"; category_description := "";
     parent_id := None |}.

Definition science_fiction : Category :=
  {| category_id := Some 2; name := "Science Fiction"; category_description := "";
     parent_id := Some 1 |}.

Definition library : Database :=
  {| foreign_keys := true; strict_limit := true; content := []; books := [];
     articles := []; magazines := []; multimedia := [];
     authors := [jane_austen]; categories := [fiction; science_fiction];
     content_authors := []; content_categories := [] |}.

Definition pride : ContentCreate :=
  {| new_title := "Pride and Prejudice"; new_description := "";
     new_content_type := ARTICLE; new_isbn := None; new_language := "English";
     new_publication_date := None; new_tags := []; new_content_metadata := ∅ |}.

Definition egerton : BookCreate :=
  {| new_page_count := None; new_publisher := "T. Egerton"; new_edition := "";
     new_format := "paperback" |}.

(** The content row of that book, as stored at time 1000 under key 1, and
    the store that holds the book with its author and its category. *)
Definition pride_row : Content := new_row 1000 pride library.

Definition library_with_pride : Database :=
  (create_book 1000 pride egerton (Some [1]) (Some [1]) library).2.

(** Two stored items about Python, the later one in capitals. *)
Definition python_item (k : Z) (t : string) (at_time : datetime) : Content :=
  {| id := Some k; title := t; description := ""; content_type := BOOK;
     status := AVAILABLE; isbn := None; language := "English";
     publication_date := None; created_at := at_time; updated_at := at_time;
     tags := []; content_metadata := ∅ |}.

Definition python_basics : Content := python_item 1 "Python Basics" 10.
Definition python_programming : Content := python_item 2 "PYTHON Programming" 20.

Definition python_shelf : Database :=
  {| foreign_keys := true; strict_limit := true;
     content := [python_basics; python_programming]; books := [];
     articles := []; magazines := []; multimedia := [];
     authors := []; categories := [];
     content_authors := []; content_categories := [] |}.

(** ** The consistency the schema asks of a stored state

    The primary key of the content table, the keys of the author and
    category tables, and the foreign keys from the book and junction
    tables to the content table. *)

Definition books_reference_content (db : Database) : Prop :=
  ∀ b, b ∈ books db → book_content_id b ∈ content_ids db.

Definition consistent (db : Database) : Prop :=
  primary_key_unique db ∧ reference_tables_keyed db ∧
  links_reference_content db ∧ books_reference_content db.

(** * Further statements *)

(** The author's first or last name contains the query, letter case
    aside. *)
Definition author_matches (query : string) (a : Author) : Prop :=
  contains_ci query (first_name a) = true ∨ contains_ci query (last_name a) = true.

#[global] Instance author_matches_dec q a : Decision (author_matches q a).
Proof. unfold author_matches. apply _. Defined.

(** Two strings that differ in the case of their letters only. *)
Definition same_letters (a b : string) : Prop :=
  lower (list_ascii_of_string a) = lower (list_ascii_of_string b).

(** Some row of the extension table of type [t] refers to content [k]. *)
Definition has_extension (t : ContentType) (k : Z) (db : Database) : Prop :=
  match t with
  | BOOK => ∃ b, b ∈ books db ∧ book_content_id b = k
  | ARTICLE => ∃ a, a ∈ articles db ∧ article_content_id a = k
  | MAGAZINE => ∃ m, m ∈ magazines db ∧ magazine_content_id m = k
  | MULTIMEDIA => ∃ m, m ∈ multimedia db ∧ multimedia_content_id m = k
  end.

(** The number of stored rows of type [t] whose status is available. *)
Definition available_rows (t : ContentType) (db : Database) : Z :=
  Z.of_nat (length (filter (λ c, content_type c = t ∧ status c = AVAILABLE) (content db))).

(** One for the status available, nought for the others. *)
Definition counts_as_available (st : ContentStatus) : Z :=
  if bool_decide (st = AVAILABLE) then 1 else 0.

(** The author [create_author] stores, under the next key of the table. *)
Definition new_author (first_name last_name biography : string)
    (birth_date : option datetime) (website : option string) (db : Database) : Author :=
  {| author_id := Some (fresh_id (author_ids_of db)); first_name := first_name;
     last_name := last_name; biography := biography; birth_date := birth_date;
     website := website |}.

(** The category [create_category] stores. *)
Definition new_category (name description : string) (parent_id : option Z)
    (db : Database) : Category :=
  {| category_id := Some (fresh_id (category_ids_of db)); name := name;
     category_description := description; parent_id := parent_id |}.

(** The name is that of a stored category. *)
Definition name_taken (n : string) (db : Database) : Prop :=
  n ∈ name <$> categories db.


#[global] Instance name_taken_dec n db : Decision (name_taken n db).
Proof. unfold name_taken. apply _. Defined.


(** The Python shelf after the first item was checked out at time 2000. *)
Definition python_shelf_checked_out : Database :=
  (update_content_status 2000 1 CHECKED_OUT python_shelf).2.

(** The library after a call of [create_book] that names author 1
    twice. *)
Definition library_after_refusal : Database :=
  (create_book 1000 pride egerton (Some [1; 1]) (Some [1]) library).2.


(** Ids that [create_book] cannot link: one given twice, or, where the
    engine checks foreign keys, one that is no key of a stored row. *)
Definition bad_ids (author_ids category_ids : option (list Z)) (db : Database) : Prop :=
  ¬ NoDup (id_list author_ids) ∨ ¬ NoDup (id_list category_ids) ∨
  (foreign_keys db = true ∧ ¬ ids_exist author_ids category_ids db).

Import SampleData.

(** Some stored content row is a book. *)
Definition book_stored (db : Database) : Prop :=
  ∃ c, c ∈ content db ∧ content_type c = BOOK.

(** "First Last", as the lookup of [create_sample_data] builds it. *)
Definition full_name (a : Author) : string :=
  (first_name a ++ " " ++ last_name a)%string.

(** A store without any row, on any engine. *)
Definition empty_store (fk sl : bool) : Database :=
  {| foreign_keys := fk; strict_limit := sl; content := []; books := [];
     articles := []; magazines := []; multimedia := []; authors := [];
     categories := []; content_authors := []; content_categories := [] |}.

(** A store that holds the category Fiction and nothing else. *)
Definition only_fiction : Database := set_categories [fiction] (empty_store true true).

Import ContentManagement.

(** A text without white space at either end. *)
Definition trimmed (l : list ascii) : Prop :=
  (∀ c, head l = Some c → is_space c = false) ∧
  (∀ c, last l = Some c → is_space c = false).

(** A tag as the form keeps it: not empty, without a comma, and without
    white space at either end. *)
Definition clean_tag (t : string) : Prop :=
  let l := list_ascii_of_string t in
  l ≠ [] ∧ (comma ∉ l) ∧ trimmed l.

(** A line of white space and commas only. *)
Definition blank_line (value : string) : Prop :=
  ∀ c, c ∈ list_ascii_of_string value → is_space c = true ∨ c = comma.

(** * Properties *)

(** ** Running the session monad *)

Lemma bind_returned {A B} (m : M A) (f : A → M B) s a s' :
  m s = (Returned a, s') → (m ≫= f) s = f a s'.
Proof. intros H. unfold mbind, M_bind. by rewrite H. Qed.

Lemma bind_raised {A B} (m : M A) (f : A → M B) s e s' :
  m s = (Raised e, s') → (m ≫= f) s = (Raised e, s').
Proof. intros H. unfold mbind, M_bind. by rewrite H. Qed.

Lemma flush_idle s : pending s = [] → flush s = (Returned (), s).
Proof. destruct s as [d t o p]. simpl. intros ->. reflexivity. Qed.

Lemma exec_idle {A} (stmt : Database → A) s :
  pending s = [] → exec stmt s = (Returned (stmt (txn s)), s).
Proof.
  intros H. unfold exec. by rewrite (bind_returned _ _ _ _ _ (flush_idle s H)).
Qed.

Lemma get_session_exec {A} (stmt : Database → A) db :
  get_session (exec stmt) db = (Returned (stmt db), db).
Proof. unfold get_session. by rewrite exec_idle. Qed.

Lemma get_session_exec_limited {A} (stmt : Database → list A) n db :
  get_session (exec_limited stmt n) db =
  if strict_limit db && bool_decide (n < 0) then (Raised DataError, db)
  else (Returned (limit_rows n (stmt db)), db).
Proof.
  unfold get_session, exec_limited.
  erewrite bind_returned by (by apply flush_idle).
  unfold run_limited. simpl. by destruct (strict_limit db && bool_decide (n < 0)).
Qed.

Lemma get_content_authors_eq k db :
  get_content_authors k db = (Returned (select_content_authors k db), db).
Proof. apply get_session_exec. Qed.

Lemma get_content_categories_eq k db :
  get_content_categories k db = (Returned (select_content_categories k db), db).
Proof. apply get_session_exec. Qed.

Lemma get_content_by_id_eq k db :
  get_content_by_id k db = (Returned (select_content_by_id k db), db).
Proof.
  unfold get_content_by_id, get_session, mbind, M_bind, session_get. simpl.
  by destruct (select_content_by_id k db).
Qed.

Lemma get_content_with_details_eq k db :
  get_content_with_details k db =
  (Returned
     (c ← select_content_by_id k db;
      Some {| details_content := c;
              details_authors := select_content_authors k db;
              details_categories := select_content_categories k db;
              extended_info := select_extension (content_type c) k db |}),
   db).
Proof.
  unfold get_content_with_details, get_session, session_get, call, deref.
  unfold mbind, M_bind. cbn -[get_content_authors get_content_categories exec].
  destruct (select_content_by_id k db) as [c|]; [|done].
  cbn -[get_content_authors get_content_categories exec].
  rewrite get_content_authors_eq, get_content_categories_eq.
  cbn -[exec]. by rewrite exec_idle.
Qed.

(** ** Read operations *)

Lemma unchanged_exec {A} (stmt : Database → A) : unchanged (get_session (exec stmt)).
Proof. intros db. by rewrite get_session_exec. Qed.

Lemma unchanged_exec_limited {A} (stmt : Database → list A) n :
  unchanged (get_session (exec_limited stmt n)).
Proof.
  intros db. rewrite get_session_exec_limited.
  by destruct (strict_limit db && bool_decide (n < 0)).
Qed.

Lemma or_zero_Some n : or_zero (Some n) = n.
Proof. unfold or_zero. by case_bool_decide. Qed.

Lemma count_each_idle ts counts s :
  pending s = [] →
  count_each ts counts s =
  (Returned (foldl (λ m t, <[t := or_zero (count_available t (txn s))]> m) counts ts), s).
Proof.
  intros H. revert counts. induction ts as [|t ts IH]; intros counts; [done|].
  cbn [count_each foldl].
  erewrite bind_returned by (by apply exec_idle). apply IH.
Qed.

Lemma get_available_content_count_eq db :
  get_available_content_count db =
  (Returned (foldl (λ m t, <[t := or_zero (count_available t db)]> m) ∅ ContentType_members), db).
Proof. unfold get_available_content_count, get_session. by rewrite count_each_idle. Qed.

(** C9: every read operation returns the stored state it was given. *)
Theorem reads_leave_state_unchanged :
  (∀ query type_filter available_only limit,
     unchanged (search_content query type_filter available_only limit)) ∧
  (∀ k, unchanged (get_content_by_id k)) ∧
  (∀ limit, unchanged (get_books limit)) ∧
  (∀ k, unchanged (get_content_with_details k)) ∧
  (∀ k, unchanged (get_content_authors k)) ∧
  (∀ k, unchanged (get_content_categories k)) ∧
  unchanged get_available_content_count ∧
  (∀ now days limit, unchanged (get_recent_content now days limit)) ∧
  unchanged get_all_authors ∧
  unchanged get_all_categories ∧
  (∀ query, unchanged (search_authors query)) ∧
  unchanged get_root_categories.
Proof.
  split_and!.
  - intros query type_filter available_only limit. apply unchanged_exec_limited.
  - intros k db. by rewrite get_content_by_id_eq.
  - intros limit. apply unchanged_exec_limited.
  - intros k db. by rewrite get_content_with_details_eq.
  - intros k. apply unchanged_exec.
  - intros k. apply unchanged_exec.
  - intros db. by rewrite get_available_content_count_eq.
  - intros now days limit. apply unchanged_exec_limited.
  - apply unchanged_exec.
  - apply unchanged_exec.
  - intros query. apply unchanged_exec.
  - apply unchanged_exec.
Qed.

(** C6: the mapping of [get_available_content_count] has the four content
    types as its keys, and each is mapped to the number of rows of that
    type whose status is available, which is zero when there is none. *)
Theorem available_count_all_types db :
  ∃ counts : gmap ContentType Z,
    get_available_content_count db = (Returned counts, db) ∧
    dom counts = ({[BOOK; ARTICLE; MAGAZINE; MULTIMEDIA]} : gset ContentType) ∧
    ∀ t, counts !! t =
         Some (Z.of_nat (length (filter (λ c, content_type c = t ∧ status c = AVAILABLE)
                                        (content db)))).
Proof.
  eexists. split; [apply get_available_content_count_eq|]. split.
  - cbn [foldl ContentType_members]. rewrite !dom_insert_L, dom_empty_L. set_solver.
  - intros t. cbn [foldl ContentType_members]. unfold count_available.
    rewrite !or_zero_Some. destruct t; by simplify_map_eq.
Qed.

(** C8: [get_root_categories] returns the categories without a parent,
    each as often as it is stored, and no category that has a parent. *)
Theorem root_categories_exact db :
  ∃ roots,
    get_root_categories db = (Returned roots, db) ∧
    roots ≡ₚ filter (λ c, parent_id c = None) (categories db) ∧
    (∀ c, c ∈ roots ↔ c ∈ categories db ∧ parent_id c = None) ∧
    (∀ c, c ∈ roots → ¬ is_Some (parent_id c)).
Proof.
  eexists. split; [apply get_session_exec|].
  assert (Hp := merge_sort_Permutation category_le
                  (filter (λ c, parent_id c = None) (categories db))).
  split; [done|]. split.
  - intros c. rewrite Hp, list_elem_of_filter. tauto.
  - intros c. rewrite Hp, list_elem_of_filter. intros [-> _] [? ?]. done.
Qed.

(** ** Junction rows *)

Lemma no_content_row_no_links k db :
  no_content_row k db → links_reference_content db → no_links k db.
Proof.
  intros Hk [Ha Hc]. split.
  - intros ca Hin <-. by apply Hk, Ha.
  - intros cc Hin <-. by apply Hk, Hc.
Qed.

Lemma select_content_authors_no_links k db :
  (∀ ca, ca ∈ content_authors db → ca_content_id ca ≠ k) →
  select_content_authors k db = [].
Proof.
  intros H. unfold select_content_authors.
  induction (authors db) as [|a l IH]; [done|].
  rewrite bind_cons, IH, app_nil_r. clear IH.
  induction (content_authors db) as [|ca l' IH]; [done|].
  rewrite bind_cons, IH by (intros; apply H; by right).
  rewrite bool_decide_false; [done|]. intros [_ ?]. by apply (H ca); [left|].
Qed.

Lemma select_content_categories_no_links k db :
  (∀ cc, cc ∈ content_categories db → cc_content_id cc ≠ k) →
  select_content_categories k db = [].
Proof.
  intros H. unfold select_content_categories.
  induction (categories db) as [|a l IH]; [done|].
  rewrite bind_cons, IH, app_nil_r. clear IH.
  induction (content_categories db) as [|cc l' IH]; [done|].
  rewrite bind_cons, IH by (intros; apply H; by right).
  rewrite bool_decide_false; [done|]. intros [_ ?]. by apply (H cc); [left|].
Qed.

(** C10: for an id without a content row, in a store whose junction rows
    all belong to content rows, or for an id without junction rows,
    [get_content_authors] and [get_content_categories] return the empty
    list; they raise nothing and return no absent value. *)
Theorem no_links_empty_lists db k
    (H : no_content_row k db ∧ links_reference_content db ∨ no_links k db) :
  get_content_authors k db = (Returned [], db) ∧
  get_content_categories k db = (Returned [], db).
Proof.
  assert (no_links k db) as [Ha Hc].
  { destruct H as [[? ?]|?]; [by apply no_content_row_no_links|done]. }
  rewrite get_content_authors_eq, get_content_categories_eq.
  by rewrite select_content_authors_no_links, select_content_categories_no_links.
Qed.

(** ** Looking a row up by its key *)

Lemma select_content_by_id_None k db :
  select_content_by_id k db = None ↔ no_content_row k db.
Proof.
  unfold select_content_by_id, no_content_row, content_ids.
  rewrite head_None. split.
  - intros Hf Hin. apply list_elem_of_omap in Hin as (c & Hc & Hid).
    assert (c ∈ filter (λ c, id c = Some k) (content db)) as Hin'
      by (by apply list_elem_of_filter).
    rewrite Hf in Hin'. by apply not_elem_of_nil in Hin'.
  - intros Hk.
    destruct (filter (λ c, id c = Some k) (content db)) as [|c l] eqn:E; [done|].
    assert (c ∈ filter (λ c, id c = Some k) (content db)) as Hin
      by (rewrite E; left).
    apply list_elem_of_filter in Hin as [Hid Hc].
    exfalso. apply Hk, list_elem_of_omap. eauto.
Qed.

Lemma select_content_by_id_Some k db c :
  select_content_by_id k db = Some c → c ∈ content db ∧ id c = Some k.
Proof.
  unfold select_content_by_id. intros H. apply head_Some_elem_of in H.
  by apply list_elem_of_filter in H as [? ?].
Qed.

Lemma same_key_same_row (l : list Content) c r k :
  NoDup (omap id l) → c ∈ l → r ∈ l → id c = Some k → id r = Some k → r = c.
Proof.
  induction l as [|x l IH]; intros Hnd Hc Hr Hck Hrk.
  - by apply not_elem_of_nil in Hc.
  - assert (∀ y, y ∈ l → id y = Some k → id x = Some k → False) as Hclash.
    { intros y Hy Hyk Hxk. simpl in Hnd. rewrite Hxk in Hnd. simpl in Hnd.
      apply NoDup_cons in Hnd as [Hn _]. apply Hn, list_elem_of_omap. eauto. }
    assert (NoDup (omap id l)) as Hnd'.
    { simpl in Hnd. destruct (id x); simpl in Hnd; [by apply NoDup_cons in Hnd as [_ ?]|done]. }
    apply elem_of_cons in Hc as [->|Hc]; apply elem_of_cons in Hr as [->|Hr].
    + done.
    + exfalso. eauto.
    + exfalso. eauto.
    + by apply IH.
Qed.

Lemma update_content_status_eq now k st db :
  update_content_status now k st db =
  match select_content_by_id k db with
  | None => (Returned false, db)
  | Some c => (Returned true, update_content (with_updated_at now (with_status st c)) db)
  end.
Proof.
  unfold update_content_status, get_session, session_get.
  unfold mbind at 1. unfold M_bind at 1. simpl.
  destruct (select_content_by_id k db) as [c|]; [|done].
  reflexivity.
Qed.

(** ** update_content_status *)

Lemma select_after_update k c' db :
  id c' = Some k → ¬ no_content_row k db →
  select_content_by_id k (update_content c' db) = Some c'.
Proof.
  intros Hk Hrow. unfold select_content_by_id, update_content. simpl.
  assert (∃ r, r ∈ content db ∧ id r = Some k) as (r & Hr & Hrk).
  { destruct (select_content_by_id k db) as [r|] eqn:E.
    - exists r. by apply select_content_by_id_Some.
    - by apply select_content_by_id_None in E. }
  induction (content db) as [|x l IH]; [by apply not_elem_of_nil in Hr|].
  rewrite fmap_cons. case_bool_decide as Hx.
  - by rewrite filter_cons_True.
  - rewrite filter_cons_False by (intros Hx'; apply Hx; congruence).
    apply IH. apply elem_of_cons in Hr as [->|Hr]; [|done].
    exfalso. apply Hx. congruence.
Qed.

Lemma update_content_restamp now k st c db :
  primary_key_unique db → c ∈ content db → id c = Some k →
  update_content (restamped now st c) db =
  set_content (restamp_row now k st (content db)) db.
Proof.
  intros Hpk Hc Hk. unfold update_content, restamp_row. f_equal.
  apply list_fmap_ext. intros i r Hr. simpl. rewrite Hk.
  case_bool_decide as Hr'; [|done].
  by rewrite (same_key_same_row (content db) c r k Hpk Hc
                (list_elem_of_lookup_2 _ _ _ Hr) Hk Hr').
Qed.

(** C3: on an id without a content row [update_content_status] returns
    false and the stored state is the one it was given.  On the id of a
    stored row it returns true; the stored state afterwards differs only
    in that row, which has the new status and the time of the call as
    [updated_at] and every other field as before; and
    [get_content_by_id] then returns that row. *)
Theorem update_content_status_frame now k st db (Hpk : primary_key_unique db) :
  (no_content_row k db →
     update_content_status now k st db = (Returned false, db)) ∧
  (∀ c, c ∈ content db → id c = Some k →
     let db' := set_content (restamp_row now k st (content db)) db in
     update_content_status now k st db = (Returned true, db') ∧
     get_content_by_id k db' = (Returned (Some (restamped now st c)), db') ∧
     status (restamped now st c) = st ∧
     updated_at (restamped now st c) = now ∧
     same_but_status_and_time c (restamped now st c)).
Proof.
  split.
  - intros Hk. rewrite update_content_status_eq.
    apply select_content_by_id_None in Hk. by rewrite Hk.
  - intros c Hc Hk db'. rewrite update_content_status_eq.
    assert (select_content_by_id k db = Some c) as Hsel.
    { destruct (select_content_by_id k db) as [r|] eqn:E.
      - apply select_content_by_id_Some in E as [Hr Hrk].
        f_equal. by apply (same_key_same_row (content db) c r k).
      - apply select_content_by_id_None in E. exfalso.
        apply E, list_elem_of_omap. eauto. }
    rewrite Hsel. fold (restamped now st c).
    rewrite (update_content_restamp now k st c db Hpk Hc Hk).
    split_and!; try done.
    rewrite get_content_by_id_eq. subst db'.
    rewrite <- (update_content_restamp now k st c db Hpk Hc Hk).
    rewrite select_after_update; [done|done|].
    intros Hno. apply Hno, list_elem_of_omap. eauto.
Qed.

(** ** search_content: ordering and LIMIT *)

#[global] Instance created_desc_total : Total created_desc.
Proof. intros a b. unfold created_desc. lia. Qed.

#[global] Instance created_desc_trans : Transitive created_desc.
Proof. intros a b c. unfold created_desc. lia. Qed.

Lemma filter_all {A} (P : A → Prop) `{!∀ x, Decision (P x)} (l : list A) :
  (∀ x, P x) → filter P l = l.
Proof.
  intros Hall. induction l as [|x l IH]; [done|].
  by rewrite filter_cons_True, IH.
Qed.

Lemma search_rows_eq q t a db :
  search_rows q t a db =
  order_by_created_at_desc (filter (selected q t a) (content db)).
Proof.
  unfold search_rows. f_equal.
  destruct (truthy q) eqn:Hq, t as [t|], a;
    rewrite ?list_filter_filter;
    first [apply list_filter_iff | symmetry; apply filter_all];
    intros c; unfold selected, other_filters; rewrite Hq; tauto.
Qed.

Lemma search_content_eq q t a limit db :
  search_content q t a limit db =
  if strict_limit db && bool_decide (limit < 0) then (Raised DataError, db)
  else (Returned (limit_rows limit (search_rows q t a db)), db).
Proof. apply get_session_exec_limited. Qed.






(** ** LIKE patterns and substrings *)

Lemma like_percent pat s :
  like (percent :: pat) s =
  like pat s || (match s with [] => false | _ :: s' => like (percent :: pat) s' end).
Proof. by destruct s. Qed.

Lemma like_literal c pat s :
  c ≠ percent → c ≠ underscore →
  like (c :: pat) s =
  match s with [] => false | d :: s' => bool_decide (c = d) && like pat s' end.
Proof.
  intros Hp Hu. cbn [like]. rewrite !bool_decide_false by done. by destruct s.
Qed.

Lemma like_only_percent s : like [percent] s = true.
Proof.
  induction s as [|d s IH]; [done|].
  rewrite like_percent, IH. apply orb_true_r.
Qed.

Lemma like_literal_prefix q s :
  percent ∉ q → underscore ∉ q → like (q ++ [percent]) s = is_prefix q s.
Proof.
  revert s. induction q as [|c q IH]; intros s Hp Hu.
  - apply like_only_percent.
  - apply not_elem_of_cons in Hp as [Hcp Hp].
    apply not_elem_of_cons in Hu as [Hcu Hu].
    rewrite <- app_comm_cons, like_literal by done.
    destruct s as [|d s]; [done|]. simpl. by rewrite IH.
Qed.

Lemma like_contains q s :
  percent ∉ q → underscore ∉ q →
  like (percent :: q ++ [percent]) s = is_infix q s.
Proof.
  intros Hp Hu. induction s as [|d s IH].
  - rewrite like_percent, like_literal_prefix by done. reflexivity.
  - rewrite like_percent, like_literal_prefix, IH by done. reflexivity.
Qed.

Lemma is_prefix_spec p s : is_prefix p s = true ↔ ∃ post, s = p ++ post.
Proof.
  revert s. induction p as [|c p IH]; intros s.
  - simpl. split; [by exists s|done].
  - destruct s as [|d s]; simpl.
    + split; [done|]. by intros [post ?].
    + rewrite andb_true_iff, bool_decide_eq_true, IH. split.
      * intros [-> [post ->]]. by exists post.
      * intros [post Heq]. injection Heq as -> ->. eauto.
Qed.

Lemma is_infix_spec p s : is_infix p s = true ↔ ∃ pre post, s = pre ++ p ++ post.
Proof.
  induction s as [|d s IH]; simpl.
  - rewrite orb_false_r, is_prefix_spec. split.
    + intros [post ->]. by exists [], post.
    + intros (pre & post & Heq). symmetry in Heq.
      apply app_eq_nil in Heq as [-> Heq]. eauto.
  - rewrite orb_true_iff, is_prefix_spec, IH. split.
    + intros [[post Heq]|(pre & post & ->)].
      * exists [], post. by rewrite Heq.
      * by exists (d :: pre), post.
    + intros ([|d' pre] & post & Heq).
      * left. by exists post.
      * right. injection Heq as -> ->. eauto.
Qed.

Lemma lower_ascii_percent c : lower_ascii c = percent → c = percent.
Proof.
  destruct c as [[] [] [] [] [] [] [] []]; vm_compute; intros H; by inversion H.
Qed.

Lemma lower_ascii_underscore c : lower_ascii c = underscore → c = underscore.
Proof.
  destruct c as [[] [] [] [] [] [] [] []]; vm_compute; intros H; by inversion H.
Qed.

Lemma lower_wildcard_free (q : list ascii) :
  percent ∉ q → underscore ∉ q → (percent ∉ lower q) ∧ (underscore ∉ lower q).
Proof.
  intros Hp Hu. unfold lower. split; intros Hin;
    apply list_elem_of_fmap in Hin as (c & Hc & Hin).
  - symmetry in Hc. apply lower_ascii_percent in Hc. by subst.
  - symmetry in Hc. apply lower_ascii_underscore in Hc. by subst.
Qed.

Lemma list_ascii_of_string_app (a b : string) :
  list_ascii_of_string (a ++ b) = list_ascii_of_string a ++ list_ascii_of_string b.
Proof. induction a as [|c a IH]; [done|]. simpl. by rewrite IH. Qed.

Lemma contains_pattern_chars q :
  lower (list_ascii_of_string (contains_pattern q)) =
  percent :: lower (list_ascii_of_string q) ++ [percent].
Proof.
  unfold contains_pattern. rewrite !list_ascii_of_string_app.
  unfold lower. by rewrite !fmap_app.
Qed.

(** The statement of the source and the words of the specification agree
    on queries without wildcards. *)
Lemma ilike_contains_ci q text :
  wildcard_free q → ilike text (contains_pattern q) = contains_ci q text.
Proof.
  intros [Hp Hu]. unfold ilike, contains_ci. rewrite contains_pattern_chars.
  destruct (lower_wildcard_free _ Hp Hu). by apply like_contains.
Qed.




(** ** The search on queries with wildcards, and with more matches than
    the limit *)


(** ** create_book, step by step *)

Lemma fresh_id_above (keys : list Z) k : k ∈ keys → k < fresh_id keys.
Proof.
  unfold fresh_id. induction keys as [|x keys IH]; intros Hin.
  - by apply not_elem_of_nil in Hin.
  - simpl. apply elem_of_cons in Hin as [->|Hin]; [lia|]. specialize (IH Hin). lia.
Qed.

Lemma fresh_id_fresh (keys : list Z) : fresh_id keys ∉ keys.
Proof. intros Hin. apply fresh_id_above in Hin. lia. Qed.

Lemma for_each_add {A} (f : A → Pending) (l : list A) s :
  for_each l (λ x, add (f x)) s =
  (Returned (), {| durable := durable s; txn := txn s; objects := objects s;
                   pending := pending s ++ (f <$> l) |}).
Proof.
  revert s. induction l as [|x l IH]; intros s.
  - simpl. rewrite app_nil_r. by destruct s.
  - cbn [for_each]. erewrite bind_returned by reflexivity.
    rewrite IH. simpl. by rewrite <- app_assoc.
Qed.

Lemma if_ids_add (f : Z → Pending) ids s :
  if_ids ids (λ l, for_each l (λ x, add (f x))) s =
  (Returned (), {| durable := durable s; txn := txn s; objects := objects s;
                   pending := pending s ++ (f <$> id_list ids) |}).
Proof.
  destruct ids as [[|x l]|]; simpl; rewrite ?app_nil_r; try by destruct s.
  apply (for_each_add f (x :: l) s).
Qed.

Lemma select_new_row k c db :
  k ∉ content_ids db →
  select_content_by_id k (set_content (content db ++ [with_id k c]) db) = Some (with_id k c).
Proof.
  intros Hk. unfold select_content_by_id. simpl. rewrite filter_app.
  assert (filter (λ c, id c = Some k) (content db) = []) as ->.
  { apply head_None. by apply (select_content_by_id_None k db). }
  by rewrite filter_cons_True.
Qed.

Lemma flush_all_app ps qs objs db :
  flush_all (ps ++ qs) objs db =
  match flush_all ps objs db with
  | inl e => inl e
  | inr (objs', db') => flush_all qs objs' db'
  end.
Proof.
  revert objs db. induction ps as [|p ps IH]; intros objs db; [done|].
  simpl. destruct (flush_one p objs db) as [e|[objs' db']]; [done|]. apply IH.
Qed.

Lemma insert_book_inr b db db' :
  insert_book b db = inr db' →
  (book_content_id b ∉ book_content_id <$> books db) ∧
  ∃ kb, db' = set_books (books db ++ [with_book_id kb b]) db.
Proof.
  unfold insert_book. case_bool_decide as Hk; [done|].
  destruct (_ && _); [done|]. cbv zeta.
  case_bool_decide; [done|]. intros [= <-]. eauto.
Qed.

Lemma insert_content_author_inr ca db db' :
  insert_content_author ca db = inr db' →
  (ca ∉ content_authors db) ∧
  db' = set_content_authors (content_authors db ++ [ca]) db.
Proof.
  unfold insert_content_author. case_bool_decide; [done|].
  destruct (_ && _); [done|]. by intros [= <-].
Qed.

Lemma insert_content_category_inr cc db db' :
  insert_content_category cc db = inr db' →
  (cc ∉ content_categories db) ∧
  db' = set_content_categories (content_categories db ++ [cc]) db.
Proof.
  unfold insert_content_category. case_bool_decide; [done|].
  destruct (_ && _); [done|]. by intros [= <-].
Qed.

Lemma flush_one_inserts_only p objs db objs' db' :
  inserts_only p → flush_one p objs db = inr (objs', db') →
  objs' = objs ∧ content db' = content db ∧ authors db' = authors db ∧
  categories db' = categories db ∧ foreign_keys db' = foreign_keys db.
Proof.
  destruct p as [h|h|b|ca|cc]; simpl; try done; intros _.
  - destruct (insert_book b db) as [e|db1] eqn:E; [done|]. intros [= <- <-].
    by apply insert_book_inr in E as (_ & kb & ->).
  - destruct (insert_content_author ca db) as [e|db1] eqn:E; [done|]. intros [= <- <-].
    by apply insert_content_author_inr in E as (_ & ->).
  - destruct (insert_content_category cc db) as [e|db1] eqn:E; [done|]. intros [= <- <-].
    by apply insert_content_category_inr in E as (_ & ->).
Qed.

Lemma flush_all_inserts_only ps objs db objs' db' :
  Forall inserts_only ps → flush_all ps objs db = inr (objs', db') →
  objs' = objs ∧ content db' = content db ∧ authors db' = authors db ∧
  categories db' = categories db ∧ foreign_keys db' = foreign_keys db.
Proof.
  intros Hall. revert objs db. induction Hall as [|p ps Hp _ IH]; intros objs db.
  - by intros [= <- <-].
  - simpl. destruct (flush_one p objs db) as [e|[objs1 db1]] eqn:E; [done|].
    intros Hrest. apply IH in Hrest as (-> & -> & -> & -> & ->).
    by apply flush_one_inserts_only in E.
Qed.

Lemma book_work_inserts_only bd k aids cids : Forall inserts_only (book_work bd k aids cids).
Proof.
  unfold book_work. apply Forall_cons. split; [done|].
  apply Forall_app. split; apply Forall_fmap, Forall_forall; by intros.
Qed.

Lemma commit_eq s :
  commit s =
  match flush_all (pending s) (objects s) (txn s) with
  | inl e => (Raised e, s)
  | inr (objs, db) =>
      (Returned (), {| durable := db; txn := db; objects := objs; pending := [] |})
  end.
Proof.
  unfold commit, mbind, M_bind, flush.
  by destruct (flush_all (pending s) (objects s) (txn s)) as [e|[objs db]].
Qed.

Lemma select_content_by_id_ext k db db' :
  content db' = content db → select_content_by_id k db' = select_content_by_id k db.
Proof. unfold select_content_by_id. by intros ->. Qed.

Lemma refresh_deref_stored c k d t p :
  id c = Some k → select_content_by_id k t = Some c →
  (refresh 0 ≫= λ _, deref 0)
    {| durable := d; txn := t; objects := [c]; pending := p |} =
  (Returned (Some c),
   {| durable := d; txn := t; objects := [c]; pending := p |}).
Proof.
  intros Hk Hsel. unfold mbind, M_bind, refresh, deref. simpl.
  rewrite Hk, Hsel. reflexivity.
Qed.

(** The second phase, from the session the first commit leaves. *)
Lemma create_book_second_commit bd aids cids c k db1 :
  id c = Some k → select_content_by_id k db1 = Some c →
  (add (InsertBook (Book_of bd k)) ;;
   if_ids aids (λ l,
     for_each l (λ author_id,
       add (InsertContentAuthor {| ca_content_id := k; ca_author_id := author_id |}))) ;;
   if_ids cids (λ l,
     for_each l (λ category_id,
       add (InsertContentCategory {| cc_content_id := k; cc_category_id := category_id |}))) ;;
   commit ;;
   refresh 0 ;;
   deref 0)
    {| durable := db1; txn := db1; objects := [c]; pending := [] |} =
  match flush_all (book_work bd k aids cids) [c] db1 with
  | inl e =>
      (Raised e, {| durable := db1; txn := db1; objects := [c];
                    pending := book_work bd k aids cids |})
  | inr (_, db2) =>
      (Returned (Some c), {| durable := db2; txn := db2; objects := [c]; pending := [] |})
  end.
Proof.
  intros Hk Hsel.
  erewrite bind_returned by reflexivity.
  erewrite bind_returned
    by apply (if_ids_add (λ a, InsertContentAuthor (mkContentAuthor k a))).
  erewrite bind_returned
    by apply (if_ids_add (λ a, InsertContentCategory (mkContentCategory k a))).
  cbn [durable txn objects pending add app].
  change (InsertBook (Book_of bd k)
          :: ((λ a, InsertContentAuthor (mkContentAuthor k a)) <$> id_list aids) ++
             ((λ a, InsertContentCategory (mkContentCategory k a)) <$> id_list cids))
    with (book_work bd k aids cids).
  unfold mbind at 1. unfold M_bind at 1. rewrite commit_eq.
  cbn [durable txn objects pending].
  destruct (flush_all (book_work bd k aids cids) [c] db1) as [e|[objs db2]] eqn:E; [done|].
  apply flush_all_inserts_only in E as (-> & Hc & _); [|apply book_work_inserts_only].
  apply (refresh_deref_stored c k); [done|]. by rewrite (select_content_by_id_ext k db1 db2).
Qed.

Lemma create_book_eq now cd bd aids cids db :
  create_book now cd bd aids cids db =
  let c := new_row now cd db in
  let db1 := set_content (content db ++ [c]) db in
  match flush_all (book_work bd (fresh_id (content_ids db)) aids cids) [c] db1 with
  | inl e => (Raised e, db1)
  | inr (_, db2) => (Returned (Some c), db2)
  end.
Proof.
  cbv zeta. unfold new_row. set (k := fresh_id (content_ids db)).
  set (c := with_id k (with_content_type BOOK (Content_of now cd))).
  unfold create_book, get_session, try_except, create_book_body.
  erewrite bind_returned by reflexivity.
  erewrite bind_returned by reflexivity.
  erewrite bind_returned by reflexivity.
  erewrite bind_returned; cycle 1.
  { rewrite commit_eq. cbn. unfold insert_content. cbn.
    rewrite bool_decide_false by apply fresh_id_fresh. reflexivity. }
  erewrite bind_returned; cycle 1.
  { unfold refresh. cbn -[select_content_by_id].
    rewrite select_new_row by apply fresh_id_fresh. reflexivity. }
  erewrite bind_returned by reflexivity.
  cbn [objects lookup list_lookup insert list_insert mbind option_bind id with_id].
  fold k. fold c.
  change ([c] !! length (@nil Content) ≫= id) with (Some k).
  change (length (@nil Content)) with 0%nat.
  rewrite (create_book_second_commit bd aids cids c k)
    by (done || apply select_new_row, fresh_id_fresh).
  by destruct (flush_all (book_work bd k aids cids) [c] _) as [e|[objs db2]].
Qed.

(** [create_book] never returns the absent value. *)
Lemma create_book_returns_content now cd bd aids cids db r db' :
  create_book now cd bd aids cids db = (Returned r, db') → r = Some (new_row now cd db).
Proof.
  rewrite create_book_eq. cbv zeta.
  destruct (flush_all _ _ _) as [e|[objs db2]]; [done|]. by intros [= <- <-].
Qed.

(** ** Joining a table with its junction table

    The lemmas hold for any table with an optional key and any junction
    table built by [mk_link]. *)

Section join.
Context {Row Link : Type}.
Variable row_id : Row → option Z.
Variable link_content link_row : Link → Z.
Variable mk_link : Z → Z → Link.
Hypothesis link_content_mk : ∀ k i, link_content (mk_link k i) = k.
Hypothesis link_row_mk : ∀ k i, link_row (mk_link k i) = i.

Local Abbreviation links_of' := (links_of row_id link_content link_row).
Local Abbreviation join' := (join row_id link_content link_row).

Lemma links_of_none k r links :
  (∀ l, l ∈ links → link_content l ≠ k) → links_of' k r links = [].
Proof.
  intros Hno. unfold links_of. induction links as [|l links IH]; [done|].
  rewrite bind_cons, IH by (intros; apply Hno; by right).
  rewrite bool_decide_false; [done|]. intros [_ ?]. by apply (Hno l); [left|].
Qed.

Lemma join_none k rows links :
  (∀ l, l ∈ links → link_content l ≠ k) → join' k rows links = [].
Proof.
  intros Hno. unfold join. induction rows as [|r rows IH]; [done|].
  by rewrite bind_cons, IH, links_of_none.
Qed.

Lemma links_of_new k r (ids : list Z) :
  NoDup ids →
  links_of' k r (mk_link k <$> ids) =
  if decide (row_id r ∈ Some <$> ids) then [r] else [].
Proof.
  intros Hnd. unfold links_of. induction Hnd as [|i ids Hi Hnd IH]; [done|].
  rewrite fmap_cons, bind_cons, IH, link_content_mk, link_row_mk.
  destruct (decide (row_id r = Some i)) as [Hr|Hr].
  - rewrite bool_decide_true by done.
    rewrite decide_False, decide_True; [done|rewrite Hr; left|].
    rewrite Hr. intros Hin. apply list_elem_of_fmap in Hin as (j & [= <-] & Hj). done.
  - rewrite bool_decide_false by (by intros [? _]). cbn [app].
    apply decide_ext. rewrite fmap_cons, elem_of_cons.
    split; [by right|]. by intros [?|?].
Qed.

Lemma join_filter k rows (old : list Link) (ids : list Z) :
  (∀ l, l ∈ old → link_content l ≠ k) → NoDup ids →
  join' k rows (old ++ (mk_link k <$> ids)) =
  filter (λ r, row_id r ∈ Some <$> ids) rows.
Proof.
  intros Hold Hnd. unfold join. induction rows as [|r rows IH]; [done|].
  rewrite bind_cons, IH, filter_cons. f_equal.
  unfold links_of. rewrite bind_app.
  fold (links_of' k r old). fold (links_of' k r (mk_link k <$> ids)).
  rewrite links_of_none, links_of_new by done. simpl.
  by destruct (decide (row_id r ∈ Some <$> ids)).
Qed.

Lemma NoDup_omap_filter (P : Row → Prop) `{!∀ r, Decision (P r)} rows :
  NoDup (omap row_id rows) → NoDup (omap row_id (filter P rows)).
Proof.
  induction rows as [|r rows IH]; [done|]. intros Hnd.
  assert (NoDup (omap row_id rows)) as Hnd'.
  { simpl in Hnd. destruct (row_id r); [by apply NoDup_cons in Hnd as [_ ?]|done]. }
  rewrite filter_cons. destruct (decide (P r)); [|by apply IH].
  simpl in *. destruct (row_id r) as [i|]; [|by apply IH].
  apply NoDup_cons in Hnd as [Hi _]. apply NoDup_cons. split; [|by apply IH].
  intros Hin. apply Hi. apply list_elem_of_omap in Hin as (x & Hx & Hxi).
  apply list_elem_of_filter in Hx as [_ Hx]. apply list_elem_of_omap. eauto.
Qed.

(** The rows the join returns for the ids just linked: one row per id. *)
Lemma joined_rows_are_the_linked k rows old ids :
  (∀ l, l ∈ old → link_content l ≠ k) → NoDup ids →
  NoDup (omap row_id rows) → (∀ i, i ∈ ids → i ∈ omap row_id rows) →
  row_id <$> join' k rows (old ++ (mk_link k <$> ids)) ≡ₚ Some <$> ids.
Proof.
  intros Hold Hnd Hkeys Hex. rewrite join_filter by done.
  set (found := filter (λ r, row_id r ∈ Some <$> ids) rows).
  assert (row_id <$> found = Some <$> omap row_id found) as ->.
  { assert (Forall (λ r, is_Some (row_id r)) found) as Hall.
    { apply Forall_forall. intros r Hr. apply list_elem_of_filter in Hr as [Hr _].
      apply list_elem_of_fmap in Hr as (i & -> & _). eauto. }
    induction Hall as [|r l [i Hr] _ IH]; [done|].
    rewrite fmap_cons.
    change (omap row_id (r :: l))
      with (match row_id r with
            | Some y => y :: omap row_id l
            | None => omap row_id l
            end).
    by rewrite Hr, fmap_cons, IH. }
  apply fmap_Permutation, NoDup_Permutation; [by apply NoDup_omap_filter|done|].
  intros i. rewrite list_elem_of_omap. split.
  - intros (r & Hr & Hri). apply list_elem_of_filter in Hr as [Hr _].
    rewrite Hri in Hr. apply list_elem_of_fmap in Hr as (j & [= <-] & Hj). done.
  - intros Hi. specialize (Hex i Hi).
    apply list_elem_of_omap in Hex as (r & Hr & Hri).
    exists r. split; [|done]. apply list_elem_of_filter. split; [|done].
    rewrite Hri. apply list_elem_of_fmap. eauto.
Qed.
End join.

(** ** What a successful second commit has written *)

Lemma flush_author_links k ids objs db objs' db' :
  flush_all (InsertContentAuthor ∘ mkContentAuthor k <$> ids) objs db = inr (objs', db') →
  db' = set_content_authors (content_authors db ++ (mkContentAuthor k <$> ids)) db ∧
  NoDup ids ∧ ∀ i, i ∈ ids → mkContentAuthor k i ∉ content_authors db.
Proof.
  revert db. induction ids as [|i ids IH]; intros db.
  - intros [= <- <-]. split_and!.
    + destruct db. simpl. by rewrite app_nil_r.
    + constructor.
    + intros i Hi. by apply not_elem_of_nil in Hi.
  - rewrite fmap_cons. cbn [flush_all flush_one compose].
    destruct (insert_content_author _ db) as [e|db1] eqn:E; [done|].
    apply insert_content_author_inr in E as [Hnew ->].
    intros Hrest. apply IH in Hrest as (-> & Hnd & Hfresh). split_and!.
    + simpl. by rewrite <- app_assoc.
    + apply NoDup_cons. split; [|done]. intros Hi.
      apply (Hfresh i Hi). simpl. apply elem_of_app. right. left.
    + intros j Hj. apply elem_of_cons in Hj as [->|Hj]; [done|].
      intros Hin. apply (Hfresh j Hj). simpl. apply elem_of_app. by left.
Qed.

Lemma flush_category_links k ids objs db objs' db' :
  flush_all (InsertContentCategory ∘ mkContentCategory k <$> ids) objs db = inr (objs', db') →
  db' = set_content_categories (content_categories db ++ (mkContentCategory k <$> ids)) db ∧
  NoDup ids ∧ ∀ i, i ∈ ids → mkContentCategory k i ∉ content_categories db.
Proof.
  revert db. induction ids as [|i ids IH]; intros db.
  - intros [= <- <-]. split_and!.
    + destruct db. simpl. by rewrite app_nil_r.
    + constructor.
    + intros i Hi. by apply not_elem_of_nil in Hi.
  - rewrite fmap_cons. cbn [flush_all flush_one compose].
    destruct (insert_content_category _ db) as [e|db1] eqn:E; [done|].
    apply insert_content_category_inr in E as [Hnew ->].
    intros Hrest. apply IH in Hrest as (-> & Hnd & Hfresh). split_and!.
    + simpl. by rewrite <- app_assoc.
    + apply NoDup_cons. split; [|done]. intros Hi.
      apply (Hfresh i Hi). simpl. apply elem_of_app. right. left.
    + intros j Hj. apply elem_of_cons in Hj as [->|Hj]; [done|].
      intros Hin. apply (Hfresh j Hj). simpl. apply elem_of_app. by left.
Qed.

(** The stored state after [create_book] has returned: one content row,
    one book row and the junction rows are new, nothing else differs. *)
Lemma create_book_returned now cd bd aids cids db r db' :
  create_book now cd bd aids cids db = (Returned r, db') →
  let k := fresh_id (content_ids db) in
  r = Some (new_row now cd db) ∧
  (k ∉ book_content_id <$> books db) ∧
  NoDup (id_list aids) ∧ NoDup (id_list cids) ∧
  ∃ kb,
    db' =
    set_content_categories
      (content_categories db ++ (mkContentCategory k <$> id_list cids))
      (set_content_authors
         (content_authors db ++ (mkContentAuthor k <$> id_list aids))
         (set_books (books db ++ [with_book_id kb (Book_of bd k)])
            (set_content (content db ++ [new_row now cd db]) db))).
Proof.
  intros Hok k. split; [by eapply create_book_returns_content|].
  rewrite create_book_eq in Hok. cbv zeta in Hok. fold k in Hok.
  unfold book_work in Hok. cbn [flush_all flush_one] in Hok.
  destruct (insert_book _ _) as [e|db1] eqn:Eb; [done|].
  apply insert_book_inr in Eb as (Hk & kb & ->).
  rewrite flush_all_app in Hok.
  destruct (flush_all (_ <$> id_list aids) _ _) as [e|[objs2 db2]] eqn:Ea; [done|].
  apply flush_author_links in Ea as (-> & Hnda & _).
  destruct (flush_all (_ <$> id_list cids) _ _) as [e|[objs3 db3]] eqn:Ec; [done|].
  apply flush_category_links in Ec as (-> & Hndc & _).
  injection Hok as _ <-. split_and!; [done..|]. by exists kb.
Qed.

(** ** create_book: what a successful call leaves *)

Lemma select_content_authors_join k db :
  select_content_authors k db =
  join author_id ca_content_id ca_author_id k (authors db) (content_authors db).
Proof. reflexivity. Qed.

Lemma select_content_categories_join k db :
  select_content_categories k db =
  join category_id cc_content_id cc_category_id k (categories db) (content_categories db).
Proof. reflexivity. Qed.

(** C2: when [create_book] has returned, the content it returns is stored
    under its id with content type book, whatever type the content data
    named; exactly one book row refers to that id, it carries the book
    data, and [get_content_with_details] returns a result whose extended
    information is that row. *)
Theorem created_book_has_one_extension now cd bd aids cids db r db'
    (Hok : create_book now cd bd aids cids db = (Returned r, db')) :
  ∃ c k b d,
    r = Some c ∧ id c = Some k ∧
    content_type c = BOOK ∧
    get_content_by_id k db' = (Returned (Some c), db') ∧
    filter (λ b, book_content_id b = k) (books db') = [b] ∧
    book_row_of bd k b ∧
    get_content_with_details k db' = (Returned (Some d), db') ∧
    details_content d = c ∧
    extended_info d = Some (BookInfo b).
Proof.
  apply create_book_returned in Hok as (-> & Hk & _ & _ & kb & ->).
  set (k := fresh_id (content_ids db)) in *.
  set (c := new_row now cd db).
  set (b := with_book_id kb (Book_of bd k)).
  assert (filter (λ b, book_content_id b = k) (books db ++ [b]) = [b]) as Hbooks.
  { rewrite filter_app, filter_cons_True by done.
    assert (filter (λ b, book_content_id b = k) (books db) = []) as ->; [|done].
    destruct (filter _ (books db)) as [|x l] eqn:E; [done|].
    assert (x ∈ filter (λ b, book_content_id b = k) (books db)) as Hx
      by (rewrite E; left).
    apply list_elem_of_filter in Hx as [Hxk Hx].
    exfalso. apply Hk, list_elem_of_fmap. eauto. }
  assert (select_content_by_id k
            (set_content (content db ++ [c]) db) = Some c) as Hsel
    by apply select_new_row, fresh_id_fresh.
  set (db' := set_content_categories _ _).
  exists c, k, b,
    {| details_content := c;
       details_authors := select_content_authors k db';
       details_categories := select_content_categories k db';
       extended_info := Some (BookInfo b) |}.
  assert (select_content_by_id k db' = Some c) as Hsel' by done.
  split_and!; try done.
  - by rewrite get_content_by_id_eq, Hsel'.
  - rewrite get_content_with_details_eq, Hsel'. simpl. by rewrite Hbooks.
Qed.

Lemma filter_keeps_all {A} (P : A → Prop) `{!∀ x, Decision (P x)} (l : list A) :
  Forall P l → filter P l = l.
Proof.
  induction 1 as [|x l Hx _ IH]; [done|]. by rewrite filter_cons_True, IH.
Qed.

Lemma filter_drops_all {A} (P : A → Prop) `{!∀ x, Decision (P x)} (l : list A) :
  Forall (λ x, ¬ P x) l → filter P l = [].
Proof.
  induction 1 as [|x l Hx _ IH]; [done|]. by rewrite filter_cons_False.
Qed.

Lemma filter_links_of_new {Link} (link_content : Link → Z) (mk : Z → Link)
    (k : Z) (old : list Link) (ids : list Z) :
  (∀ i, link_content (mk i) = k) →
  (∀ l, l ∈ old → link_content l ≠ k) →
  filter (λ l, link_content l = k) (old ++ (mk <$> ids)) = mk <$> ids.
Proof.
  intros Hmk Hold. rewrite filter_app.
  rewrite filter_drops_all by (apply Forall_forall; intros l Hl; by apply Hold).
  rewrite filter_keeps_all; [done|].
  apply Forall_fmap, Forall_forall. intros i _. apply Hmk.
Qed.

(** C7: when [create_book] has returned, in a store whose author and
    category keys are unique and whose junction rows all belong to
    content rows, and with ids that are keys of stored authors and
    categories: the junction rows of the new content are exactly one per
    author id and one per category id given, and
    [get_content_authors] and [get_content_categories] return as many
    rows as ids were given, the rows with exactly those ids. *)
Theorem created_book_has_its_links now cd bd aids cids db r db'
    (Hlinks : links_reference_content db)
    (Hkeys : reference_tables_keyed db)
    (Hids : ids_exist aids cids db)
    (Hok : create_book now cd bd aids cids db = (Returned r, db')) :
  ∃ c k authors_found categories_found,
    r = Some c ∧ id c = Some k ∧
    filter (λ ca, ca_content_id ca = k) (content_authors db') =
      mkContentAuthor k <$> id_list aids ∧
    filter (λ cc, cc_content_id cc = k) (content_categories db') =
      mkContentCategory k <$> id_list cids ∧
    get_content_authors k db' = (Returned authors_found, db') ∧
    get_content_categories k db' = (Returned categories_found, db') ∧
    length authors_found = length (id_list aids) ∧
    length categories_found = length (id_list cids) ∧
    author_id <$> authors_found ≡ₚ Some <$> id_list aids ∧
    category_id <$> categories_found ≡ₚ Some <$> id_list cids ∧
    (∀ a, a ∈ authors_found → a ∈ authors db) ∧
    (∀ c, c ∈ categories_found → c ∈ categories db).
Proof.
  apply create_book_returned in Hok as (-> & _ & Hnda & Hndc & kb & ->).
  set (k := fresh_id (content_ids db)) in *.
  destruct Hlinks as [Hla Hlc], Hkeys as [Hka Hkc], Hids as [Hia Hic].
  assert (∀ ca, ca ∈ content_authors db → ca_content_id ca ≠ k) as Hnoa.
  { intros ca Hin Heq. apply (fresh_id_fresh (content_ids db)).
    fold k. rewrite <- Heq. by apply Hla. }
  assert (∀ cc, cc ∈ content_categories db → cc_content_id cc ≠ k) as Hnoc.
  { intros cc Hin Heq. apply (fresh_id_fresh (content_ids db)).
    fold k. rewrite <- Heq. by apply Hlc. }
  set (db' := set_content_categories _ _).
  assert (author_id <$> select_content_authors k db' ≡ₚ Some <$> id_list aids) as Hpa.
  { rewrite select_content_authors_join.
    by apply (joined_rows_are_the_linked author_id ca_content_id ca_author_id
                mkContentAuthor). }
  assert (category_id <$> select_content_categories k db' ≡ₚ Some <$> id_list cids) as Hpc.
  { rewrite select_content_categories_join.
    by apply (joined_rows_are_the_linked category_id cc_content_id cc_category_id
                mkContentCategory). }
  exists (new_row now cd db), k,
    (select_content_authors k db'), (select_content_categories k db').
  split; [done|]. split; [done|].
  split; [by apply (filter_links_of_new ca_content_id (mkContentAuthor k))|].
  split; [by apply (filter_links_of_new cc_content_id (mkContentCategory k))|].
  split; [apply get_content_authors_eq|].
  split; [apply get_content_categories_eq|].
  split; [apply Permutation_length in Hpa; by rewrite !length_fmap in Hpa|].
  split; [apply Permutation_length in Hpc; by rewrite !length_fmap in Hpc|].
  split; [done|]. split; [done|]. split.
  - intros a. rewrite select_content_authors_join.
    simpl. rewrite (join_filter author_id ca_content_id ca_author_id mkContentAuthor)
      by done.
    intros Ha. by apply list_elem_of_filter in Ha as [_ ?].
  - intros c. rewrite select_content_categories_join.
    simpl. rewrite (join_filter category_id cc_content_id cc_category_id mkContentCategory)
      by done.
    intros Hc. by apply list_elem_of_filter in Hc as [_ ?].
Qed.

(** ** create_book: what a failed call leaves *)

(** When the second commit fails, the rollback has nothing of the first
    commit left to undo: the content row stays, without book row and
    without junction rows. *)
Lemma create_book_raised now cd bd aids cids db e db' :
  create_book now cd bd aids cids db = (Raised e, db') →
  db' = set_content (content db ++ [new_row now cd db]) db.
Proof.
  rewrite create_book_eq. cbv zeta.
  destruct (flush_all _ _ _) as [e'|[objs db2]]; [|done]. by intros [= _ <-].
Qed.

(** C1, at a failing input: with the author id 1 given twice the second
    junction row violates the primary key and the error is raised to the
    caller, but the content row is stored and read back by
    [get_content_by_id], without its book row; and likewise with the id
    of an author that is not stored, on an engine that checks foreign
    keys. *)
Theorem create_book_failure_keeps_content_row :
  (∃ db',
     create_book 1000 pride egerton (Some [1; 1]) (Some [1]) library =
       (Raised (UniqueViolation "content_authors"), db') ∧
     content db' = [pride_row] ∧
     get_content_by_id 1 db' = (Returned (Some pride_row), db') ∧
     books db' = [] ∧ content_authors db' = [] ∧ content_categories db' = []) ∧
  (∃ db',
     create_book 1000 pride egerton (Some [7]) None library =
       (Raised (ForeignKeyViolation "content_authors"), db') ∧
     content db' = [pride_row] ∧
     get_content_by_id 1 db' = (Returned (Some pride_row), db') ∧
     books db' = []).
Proof. split; eexists; by vm_compute. Qed.

(** ** Consistency is kept, and [create_book] succeeds on good input *)

Lemma content_ids_new_row k c db :
  content_ids (set_content (content db ++ [with_id k c]) db) = content_ids db ++ [k].
Proof. unfold content_ids. simpl. by rewrite omap_app. Qed.

Lemma omap_fmap_same {A B} (f : A → option B) (g : A → A) (l : list A) :
  (∀ x, f (g x) = f x) → omap f (g <$> l) = omap f l.
Proof.
  intros Hfg. induction l as [|x l IH]; [done|]. csimpl. by rewrite Hfg, IH.
Qed.

Lemma content_ids_update c db :
  content_ids (update_content c db) = content_ids db.
Proof.
  unfold content_ids, update_content. simpl. apply omap_fmap_same.
  intros r. case_bool_decide as Hr; [|done]. by rewrite <- Hr.
Qed.



Lemma consistent_new_row c db :
  consistent db →
  consistent (set_content (content db ++ [with_id (fresh_id (content_ids db)) c]) db).
Proof.
  intros (Hpk & Hkeys & [Hla Hlc] & Hb).
  unfold consistent, primary_key_unique, links_reference_content,
    books_reference_content.
  rewrite content_ids_new_row. split_and!; try done.
  - apply NoDup_app. split_and!; [done| |apply NoDup_singleton].
    intros k Hk ->%list_elem_of_singleton. by apply fresh_id_fresh in Hk.
  - intros ca Hca. apply elem_of_app. left. by apply Hla.
  - intros cc Hcc. apply elem_of_app. left. by apply Hlc.
  - intros b Hin. apply elem_of_app. left. by apply Hb.
Qed.

Lemma consistent_new_links k b aids cids db :
  consistent db → k ∈ content_ids db → book_content_id b = k →
  consistent
    (set_content_categories (content_categories db ++ (mkContentCategory k <$> cids))
       (set_content_authors (content_authors db ++ (mkContentAuthor k <$> aids))
          (set_books (books db ++ [b]) db))).
Proof.
  intros (Hpk & Hkeys & [Hla Hlc] & Hb) Hk Hbk.
  unfold consistent, primary_key_unique, links_reference_content,
    books_reference_content. simpl. split_and!; try done.
  - intros ca [Hca|Hca]%elem_of_app; [by apply Hla|].
    by apply list_elem_of_fmap in Hca as (i & -> & _).
  - intros cc [Hcc|Hcc]%elem_of_app; [by apply Hlc|].
    by apply list_elem_of_fmap in Hcc as (i & -> & _).
  - intros b' [Hin|Hin]%elem_of_app; [by apply Hb|].
    apply list_elem_of_singleton in Hin as ->. by rewrite Hbk.
Qed.

Example library_consistent : consistent library.
Proof.
  unfold consistent, reference_tables_keyed, links_reference_content,
    books_reference_content.
  split_and!; try compute_done; intros x Hx; by apply not_elem_of_nil in Hx.
Qed.

(** Whether it returns or raises, [create_book] leaves a consistent
    state consistent. *)
Lemma create_book_consistent now cd bd aids cids db r db' :
  consistent db → create_book now cd bd aids cids db = (r, db') → consistent db'.
Proof.
  intros Hc Hrun. destruct r as [r|e].
  - apply create_book_returned in Hrun as (_ & _ & _ & _ & kb & ->).
    apply (consistent_new_links _ _ _ _
             (set_content (content db ++ [new_row now cd db]) db));
      [by apply consistent_new_row| |done].
    unfold new_row. rewrite content_ids_new_row. apply elem_of_app. right. left.
  - apply create_book_raised in Hrun as ->. by apply consistent_new_row.
Qed.

Lemma update_content_status_consistent now k st db r db' :
  consistent db → update_content_status now k st db = (r, db') → consistent db'.
Proof.
  intros Hc. rewrite update_content_status_eq.
  destruct (select_content_by_id k db) as [c|]; intros [= _ <-]; [|done].
  destruct Hc as (Hpk & Hkeys & [Hla Hlc] & Hb).
  unfold consistent, primary_key_unique, links_reference_content,
    books_reference_content.
  by rewrite content_ids_update.
Qed.


(** ** The properties at the example data *)

Lemma library_with_pride_created :
  create_book 1000 pride egerton (Some [1]) (Some [1]) library =
  (Returned (Some pride_row), library_with_pride).
Proof. by vm_compute. Qed.

Lemma created_book_has_one_extension_witness :
  create_book 1000 pride egerton (Some [1]) (Some [1]) library =
    (Returned (Some pride_row), library_with_pride) ∧
  ∃ b, filter (λ b, book_content_id b = 1) (books library_with_pride) = [b] ∧
       book_publisher b = "T. Egerton"%string.
Proof.
  split; [exact library_with_pride_created|].
  destruct (created_book_has_one_extension 1000 pride egerton (Some [1]) (Some [1])
              library (Some pride_row) library_with_pride library_with_pride_created)
    as (c & k & b & d & Hr & Hid & _ & _ & Hfilter & Hrow & _).
  injection Hr as <-. injection Hid as <-.
  exists b. split; [exact Hfilter|]. by destruct Hrow as (_ & _ & _ & -> & _).
Defined.

Lemma update_content_status_frame_witness :
  primary_key_unique library_with_pride ∧
  update_content_status 2000 9 RESERVED library_with_pride =
    (Returned false, library_with_pride) ∧
  update_content_status 2000 1 RESERVED library_with_pride =
    (Returned true,
     set_content (restamp_row 2000 1 RESERVED (content library_with_pride))
       library_with_pride).
Proof.
  assert (primary_key_unique library_with_pride) as Hpk by compute_done.
  split; [exact Hpk|].
  destruct (update_content_status_frame 2000 9 RESERVED library_with_pride Hpk)
    as [Habsent _].
  destruct (update_content_status_frame 2000 1 RESERVED library_with_pride Hpk)
    as [_ Hstored].
  split.
  - apply Habsent. compute_done.
  - apply (Hstored pride_row); [|reflexivity].
    assert (content library_with_pride = [pride_row]) as -> by by vm_compute.
    left.
Defined.



Lemma created_book_has_its_links_witness :
  links_reference_content library ∧ reference_tables_keyed library ∧
  ids_exist (Some [1]) (Some [1]) library ∧
  ∃ found,
    get_content_authors 1 library_with_pride = (Returned found, library_with_pride) ∧
    author_id <$> found ≡ₚ [Some 1].
Proof.
  assert (links_reference_content library) as Hlinks.
  { split; intros x Hx; by apply not_elem_of_nil in Hx. }
  assert (reference_tables_keyed library) as Hkeys by (split; compute_done).
  assert (ids_exist (Some [1]) (Some [1]) library) as Hids.
  { split; intros i Hi; apply list_elem_of_singleton in Hi as ->; left. }
  split; [exact Hlinks|]. split; [exact Hkeys|]. split; [exact Hids|].
  destruct (created_book_has_its_links 1000 pride egerton (Some [1]) (Some [1])
              library (Some pride_row) library_with_pride Hlinks Hkeys Hids
              library_with_pride_created)
    as (c & k & found & _ & Hr & Hid & _ & _ & Hget & _ & _ & _ & Hperm & _).
  injection Hr as <-. injection Hid as <-.
  exists found. split; [exact Hget|exact Hperm].
Defined.

Lemma no_links_empty_lists_witness :
  (no_content_row 9 library_with_pride ∧ links_reference_content library_with_pride ∨
   no_links 9 library_with_pride) ∧
  get_content_authors 9 library_with_pride = (Returned [], library_with_pride) ∧
  get_content_categories 9 library_with_pride = (Returned [], library_with_pride).
Proof.
  assert (no_content_row 9 library_with_pride ∧
          links_reference_content library_with_pride ∨
          no_links 9 library_with_pride) as H.
  { right. split; intros x Hx; apply list_elem_of_singleton in Hx as ->; done. }
  split; [exact H|]. exact (no_links_empty_lists library_with_pride 9 H).
Defined.

(** The scenario of the specification, run: the book is found by its
    title, has the one author, and is counted as an available book. *)
Example pride_and_prejudice_scenario :
  get_content_authors 1 library_with_pride = (Returned [jane_austen], library_with_pride) ∧
  get_content_categories 1 library_with_pride = (Returned [fiction], library_with_pride) ∧
  search_content "Pride" None true 50 library_with_pride =
    (Returned [pride_row], library_with_pride) ∧
  title pride_row = "Pride and Prejudice"%string ∧
  (get_available_content_count library_with_pride).1 =
    Returned (<[BOOK := 1]> (<[ARTICLE := 0]> (<[MAGAZINE := 0]> (<[MULTIMEDIA := 0]> ∅)))) ∧
  (CategoryService.get_root_categories library_with_pride).1 = Returned [fiction].
Proof. by vm_compute. Qed.

(** * Further properties of the service layer *)

(** ** The order of strings *)

Lemma string_compare_refl (s : string) : String.compare s s = Eq.
Proof.
  induction s as [|c s IH]; [done|]. simpl.
  unfold Ascii.compare. by rewrite N.compare_refl.
Qed.

Lemma string_compare_lt_trans (a b c : string) :
  String.compare a b = Lt → String.compare b c = Lt → String.compare a c = Lt.
Proof.
  revert b c. induction a as [|x a IH]; intros [|y b] [|z c]; simpl; try done.
  unfold Ascii.compare.
  destruct (N.compare_spec (N_of_ascii x) (N_of_ascii y)) as [Hxy|Hxy|Hxy];
    destruct (N.compare_spec (N_of_ascii y) (N_of_ascii z)) as [Hyz|Hyz|Hyz];
    try done; intros Hab Hbc.
  - rewrite Hxy, Hyz, N.compare_refl. by apply (IH b).
  - rewrite Hxy. by apply N.compare_lt_iff in Hyz as ->.
  - rewrite <- Hyz. by apply N.compare_lt_iff in Hxy as ->.
  - assert (N_of_ascii x < N_of_ascii z)%N as Hxz by by etrans.
    by apply N.compare_lt_iff in Hxz as ->.
Qed.

#[global] Instance string_le_total : Total string_le.
Proof. intros a b. apply String.leb_total. Qed.

#[global] Instance string_le_trans : Transitive string_le.
Proof.
  intros a b c. unfold string_le, String.leb.
  destruct (String.compare a b) eqn:Hab; [|  |done].
  - apply String.compare_eq_iff in Hab as ->. done.
  - destruct (String.compare b c) eqn:Hbc; [| |done].
    + apply String.compare_eq_iff in Hbc as <-. by rewrite Hab.
    + by rewrite (string_compare_lt_trans a b c).
Qed.

#[global] Instance author_le_total : Total author_le.
Proof.
  intros a b. unfold author_le.
  rewrite (String.compare_antisym (last_name b) (last_name a)).
  destruct (String.compare (last_name a) (last_name b)); simpl; auto.
  apply string_le_total.
Qed.

#[global] Instance author_le_trans : Transitive author_le.
Proof.
  intros a b c. unfold author_le.
  destruct (String.compare (last_name a) (last_name b)) eqn:Hab; [| |done].
  - apply String.compare_eq_iff in Hab as ->.
    destruct (String.compare (last_name b) (last_name c)); [|done..].
    apply string_le_trans.
  - destruct (String.compare (last_name b) (last_name c)) eqn:Hbc; [| |done].
    + apply String.compare_eq_iff in Hbc as <-. by rewrite Hab.
    + by rewrite (string_compare_lt_trans _ _ _ Hab Hbc).
Qed.

#[global] Instance category_le_total : Total category_le.
Proof. intros a b. apply string_le_total. Qed.

#[global] Instance category_le_trans : Transitive category_le.
Proof. intros a b c. apply string_le_trans. Qed.

(** ** Listings: get_books, get_recent_content, authors and categories *)





(** X3: [get_all_authors] returns every stored author once for each row,
    ordered by last name and, among equal last names, by first name. *)
Theorem get_all_authors_sorted db :
  ∃ listed,
    get_all_authors db = (Returned listed, db) ∧
    listed ≡ₚ authors db ∧
    StronglySorted author_le listed.
Proof.
  eexists. split; [apply get_session_exec|]. split.
  - apply merge_sort_Permutation.
  - apply StronglySorted_merge_sort; apply _.
Qed.

(** X4: [get_all_categories] returns every stored category, ordered by
    name. *)
Theorem get_all_categories_sorted db :
  ∃ listed,
    get_all_categories db = (Returned listed, db) ∧
    listed ≡ₚ categories db ∧
    StronglySorted category_le listed.
Proof.
  eexists. split; [apply get_session_exec|]. split.
  - apply merge_sort_Permutation.
  - apply StronglySorted_merge_sort; apply _.
Qed.

(** ** search_authors *)


Lemma is_infix_nil s : is_infix [] s = true.
Proof. by destruct s. Qed.

(** X6: The empty query selects every author: [search_authors] of the
    empty string is [get_all_authors]. *)
Theorem search_authors_empty_query db :
  search_authors "" db = get_all_authors db.
Proof.
  unfold search_authors, get_all_authors. rewrite !get_session_exec.
  rewrite filter_all; [done|]. intros a. left.
  rewrite (ilike_contains_ci "" _); [|split; apply not_elem_of_nil].
  apply is_infix_nil.
Qed.

(** ** Letter case of the query *)

Lemma same_letters_pattern q q' text :
  same_letters q q' → ilike text (contains_pattern q) = ilike text (contains_pattern q').
Proof. intros H. unfold ilike. by rewrite !contains_pattern_chars, H. Qed.

Lemma same_letters_truthy q q' : same_letters q q' → truthy q = truthy q'.
Proof. by destruct q, q'. Qed.

(** X7: The searches do not tell the letter case of the query: two queries
    that differ in case only give the same result, for content and for
    authors. *)
Theorem search_ignores_case q q' (Hsame : same_letters q q') :
  (∀ t a limit db, search_content q t a limit db = search_content q' t a limit db) ∧
  (∀ db, search_authors q db = search_authors q' db).
Proof.
  split.
  - intros t a limit db. rewrite !search_content_eq, !search_rows_eq.
    assert (filter (selected q t a) (content db) =
            filter (selected q' t a) (content db)) as ->; [|done].
    apply list_filter_iff. intros c. unfold selected.
    by rewrite (same_letters_truthy q q'), !(same_letters_pattern q q').
  - intros db. unfold search_authors. rewrite !get_session_exec.
    assert (filter (λ a, ilike (first_name a) (contains_pattern q) = true ∨
                         ilike (last_name a) (contains_pattern q) = true) (authors db) =
            filter (λ a, ilike (first_name a) (contains_pattern q') = true ∨
                         ilike (last_name a) (contains_pattern q') = true) (authors db))
      as ->; [|done].
    apply list_filter_iff. intros a.
    by rewrite !(same_letters_pattern q q').
Qed.

(** ** What a search can return *)

Lemma elem_of_limit_rows {A} (n : Z) (l : list A) x : x ∈ limit_rows n l → x ∈ l.
Proof.
  unfold limit_rows. case_bool_decide; [done|].
  intros (i & Hi & _)%elem_of_take. by eapply list_elem_of_lookup_2.
Qed.

Lemma search_content_returned q t a limit db results db' :
  search_content q t a limit db = (Returned results, db') →
  db' = db ∧ results = limit_rows limit (search_rows q t a db).
Proof.
  rewrite search_content_eq. destruct (_ && _); [done|]. by intros [= <- <-].
Qed.

(** X8: Whatever the query and the limit, every item [search_content] returns
    is a stored row that passes the type filter and, when only available
    items are asked for, is available; and the stored state is as
    before. *)
Theorem search_results_pass_filters q t a limit db results db'
    (Hrun : search_content q t a limit db = (Returned results, db')) :
  db' = db ∧
  ∀ c, c ∈ results →
    c ∈ content db ∧
    (∀ t', t = Some t' → content_type c = t') ∧
    (a = true → status c = AVAILABLE).
Proof.
  apply search_content_returned in Hrun as [-> ->]. split; [done|].
  intros c Hc%elem_of_limit_rows. rewrite search_rows_eq in Hc.
  unfold order_by_created_at_desc in Hc. rewrite merge_sort_Permutation in Hc.
  apply list_elem_of_filter in Hc as [[_ [Ht Ha]] Hc]. split_and!; [done| |].
  - intros t' ->. done.
  - intros ->. done.
Qed.

(** ** get_content_with_details *)

Lemma head_filter_None {A} (P : A → Prop) `{!∀ x, Decision (P x)} (l : list A) :
  head (filter P l) = None ↔ ∀ x, x ∈ l → ¬ P x.
Proof.
  rewrite head_None. split.
  - intros Hnil x Hx HP. assert (x ∈ filter P l) as Hin by by apply list_elem_of_filter.
    rewrite Hnil in Hin. by apply not_elem_of_nil in Hin.
  - intros Hno. apply filter_drops_all, Forall_forall. done.
Qed.

Lemma select_extension_None t k db :
  select_extension t k db = None ↔ ¬ has_extension t k db.
Proof.
  destruct t; simpl; rewrite fmap_None, head_filter_None;
    (split; [intros Hno (x & Hx & Hk); by apply (Hno x)
            |intros Hno x Hx Hk; apply Hno; eauto]).
Qed.

(** X9: [get_content_with_details] returns the absent value exactly for an
    id without a content row.  Otherwise its result holds a stored row of
    that id, the authors and categories that [get_content_authors] and
    [get_content_categories] return, and the extension row of the
    content's own type; the extended information is absent exactly when
    no row of that extension table refers to the id, whatever the other
    extension tables hold. *)
Theorem get_content_with_details_complete k db :
  (no_content_row k db → get_content_with_details k db = (Returned None, db)) ∧
  (¬ no_content_row k db →
     ∃ c d,
       c ∈ content db ∧ id c = Some k ∧
       get_content_with_details k db = (Returned (Some d), db) ∧
       details_content d = c ∧
       get_content_authors k db = (Returned (details_authors d), db) ∧
       get_content_categories k db = (Returned (details_categories d), db) ∧
       (extended_info d = None ↔ ¬ has_extension (content_type c) k db)).
Proof.
  rewrite get_content_with_details_eq. split.
  - intros Hno. apply select_content_by_id_None in Hno. by rewrite Hno.
  - intros Hrow. destruct (select_content_by_id k db) as [c|] eqn:Hsel; cycle 1.
    { by apply select_content_by_id_None in Hsel. }
    apply select_content_by_id_Some in Hsel as [Hc Hk].
    eexists c, _. simpl.
    split; [done|]. split; [done|]. split; [done|]. split; [done|].
    split; [apply get_content_authors_eq|].
    split; [apply get_content_categories_eq|].
    apply select_extension_None.
Qed.

(** ** update_content_status and the other operations *)

Lemma update_content_status_returned_true now k st db db' :
  update_content_status now k st db = (Returned true, db') →
  ∃ c, c ∈ content db ∧ id c = Some k ∧
       db' = update_content (restamped now st c) db.
Proof.
  rewrite update_content_status_eq.
  destruct (select_content_by_id k db) as [c|] eqn:Hsel; [|done].
  intros [= <-]. apply select_content_by_id_Some in Hsel as [Hc Hk]. eauto.
Qed.

Lemma updated_rows_status c' k db r :
  id c' = Some k → r ∈ content (update_content c' db) → id r = Some k → r = c'.
Proof.
  intros Hk Hr Hrk. unfold update_content in Hr. simpl in Hr.
  apply list_elem_of_fmap in Hr as (x & -> & _).
  case_bool_decide as Hx; [done|]. congruence.
Qed.

(** X10: After [update_content_status] has set a status other than available
    on an id, no search for available items returns a row of that id. *)
Theorem unavailable_item_not_searched now k st db db' q t limit results db''
    (Hst : st ≠ AVAILABLE)
    (Hupd : update_content_status now k st db = (Returned true, db'))
    (Hrun : search_content q t true limit db' = (Returned results, db'')) :
  ∀ c, c ∈ results → id c ≠ Some k.
Proof.
  apply update_content_status_returned_true in Hupd as (c0 & _ & Hk & ->).
  apply search_content_returned in Hrun as [_ ->].
  intros c Hc%elem_of_limit_rows Hck. rewrite search_rows_eq in Hc.
  unfold order_by_created_at_desc in Hc. rewrite merge_sort_Permutation in Hc.
  apply list_elem_of_filter in Hc as [[_ [_ Ha]] Hc].
  apply (updated_rows_status (restamped now st c0) k) in Hc; [|done..].
  subst c. done.
Qed.

Lemma update_content_twice c1 c2 db :
  id c1 = id c2 →
  update_content c2 (update_content c1 db) = update_content c2 db.
Proof.
  intros Hid. unfold update_content.
  change (content (set_content ?rows db)) with rows.
  assert (∀ rows rows', rows = rows' →
            set_content rows (set_content ((λ r, if bool_decide (id r = id c1)
                                                 then c1 else r) <$> content db) db) =
            set_content rows' db) as Hset by (by intros ? ? ->).
  apply Hset. rewrite <- list_fmap_compose. apply list_fmap_ext. intros i r _. simpl.
  rewrite Hid. destruct (decide (id r = id c2)) as [Hr|Hr].
  - rewrite (bool_decide_true (id r = id c2)) by done. rewrite <- Hid.
    by rewrite bool_decide_true.
  - rewrite (bool_decide_false (id r = id c2)) by done.
    by rewrite bool_decide_false.
Qed.

(** X11: The last status set is the one kept: two calls of
    [update_content_status] on one id leave the state that the second
    call alone leaves, and return what it returns. *)
Theorem update_content_status_last_wins now1 st1 now2 st2 k db :
  update_content_status now2 k st2 (update_content_status now1 k st1 db).2 =
  update_content_status now2 k st2 db.
Proof.
  rewrite !update_content_status_eq.
  destruct (select_content_by_id k db) as [c|] eqn:Hsel; simpl.
  - apply select_content_by_id_Some in Hsel as Hc. destruct Hc as [Hc Hk].
    set (c1 := with_updated_at now1 (with_status st1 c)).
    rewrite (select_after_update k c1 db); [|done|]; cycle 1.
    { intros Hno. apply Hno, list_elem_of_omap. eauto. }
    change (with_updated_at now2 (with_status st2 c1))
      with (with_updated_at now2 (with_status st2 c)).
    by rewrite update_content_twice.
  - by rewrite Hsel.
Qed.

(** ** get_available_content_count and the other operations *)

Lemma get_available_content_count_lookup db t :
  ∃ counts : gmap ContentType Z,
    get_available_content_count db = (Returned counts, db) ∧
    counts !! t = Some (available_rows t db).
Proof.
  eexists. split; [apply get_available_content_count_eq|].
  cbn [foldl ContentType_members]. unfold count_available.
  rewrite !or_zero_Some. destruct t; by simplify_map_eq.
Qed.


Lemma filter_restamp_other now k st (P : Content → Prop) `{!∀ c, Decision (P c)}
    (rows : list Content) :
  (∀ r, r ∈ rows → id r ≠ Some k) →
  filter P (restamp_row now k st rows) = filter P rows.
Proof.
  intros Hno. unfold restamp_row. f_equal.
  rewrite <- (list_fmap_id rows) at 2. apply list_fmap_ext.
  intros i r Hr. simpl. rewrite bool_decide_false; [done|].
  apply Hno. by eapply list_elem_of_lookup_2.
Qed.

Lemma available_after_restamp now k st t c (rows : list Content) :
  NoDup (omap id rows) → c ∈ rows → id c = Some k →
  Z.of_nat (length (filter (λ r, content_type r = t ∧ status r = AVAILABLE)
                           (restamp_row now k st rows))) =
  Z.of_nat (length (filter (λ r, content_type r = t ∧ status r = AVAILABLE) rows)) +
  (if bool_decide (content_type c = t)
   then counts_as_available st - counts_as_available (status c) else 0).
Proof.
  induction rows as [|x rows IH]; intros Hnd Hc Hk.
  - by apply not_elem_of_nil in Hc.
  - assert (NoDup (omap id rows)) as Hnd'.
    { simpl in Hnd. destruct (id x); [by apply NoDup_cons in Hnd as [_ ?]|done]. }
    destruct (decide (id x = Some k)) as [Hx|Hx].
    + assert (x = c) as ->.
      { apply (same_key_same_row (x :: rows) c x k); [done|done|left|done|done]. }
      assert (∀ r, r ∈ rows → id r ≠ Some k) as Hrest.
      { intros r Hr Hrk. simpl in Hnd. rewrite Hk in Hnd. simpl in Hnd.
        apply NoDup_cons in Hnd as [Hn _]. apply Hn, list_elem_of_omap. eauto. }
      change (restamp_row now k st (c :: rows))
        with ((if bool_decide (id c = Some k) then restamped now st c else c)
              :: restamp_row now k st rows).
      rewrite bool_decide_true by done.
      rewrite !filter_cons, filter_restamp_other by done.
      unfold counts_as_available. simpl.
      repeat (case_decide || case_bool_decide); simpl in *;
        try lia; tauto.
    + assert (c ∈ rows) as Hc'.
      { apply elem_of_cons in Hc as [->|?]; [done|done]. }
      change (restamp_row now k st (x :: rows))
        with ((if bool_decide (id x = Some k) then restamped now st x else x)
              :: restamp_row now k st rows).
      rewrite bool_decide_false by done.
      rewrite !filter_cons. specialize (IH Hnd' Hc' Hk).
      destruct (decide (content_type x = t ∧ status x = AVAILABLE));
        cbn [length]; rewrite ?Nat2Z.inj_succ; lia.
Qed.

Lemma available_rows_after_update now k st c db db' t
    (Hpk : primary_key_unique db) (Hc : c ∈ content db) (Hk : id c = Some k)
    (Hupd : update_content_status now k st db = (Returned true, db')) :
  available_rows t db' =
  available_rows t db +
  (if bool_decide (content_type c = t)
   then counts_as_available st - counts_as_available (status c) else 0).
Proof.
  apply update_content_status_returned_true in Hupd as (c0 & Hc0 & Hk0 & ->).
  assert (c0 = c) as -> by by apply (same_key_same_row (content db) c c0 k).
  rewrite (update_content_restamp now k st c db Hpk Hc Hk).
  unfold available_rows. simpl. by apply available_after_restamp.
Qed.

(** X13: Setting the status of a stored item moves the count that
    [get_available_content_count] gives for its type by one when the item
    becomes or ceases to be available, and leaves the counts of the other
    types as they were. *)
Theorem count_follows_status_update now k st c db db'
    (Hpk : primary_key_unique db) (Hc : c ∈ content db) (Hk : id c = Some k)
    (Hupd : update_content_status now k st db = (Returned true, db')) :
  ∃ counts counts' : gmap ContentType Z,
    get_available_content_count db = (Returned counts, db) ∧
    get_available_content_count db' = (Returned counts', db') ∧
    ∀ t, ∃ n,
      counts !! t = Some n ∧
      counts' !! t =
        Some (n + if bool_decide (content_type c = t)
                  then counts_as_available st - counts_as_available (status c)
                  else 0).
Proof.
  eexists _, _.
  split; [apply get_available_content_count_eq|].
  split; [apply get_available_content_count_eq|].
  intros t. exists (available_rows t db).
  rewrite <- (available_rows_after_update now k st c db db' t Hpk Hc Hk Hupd).
  cbn [foldl ContentType_members]. unfold count_available.
  rewrite !or_zero_Some. destruct t; split; by simplify_map_eq.
Qed.

(** ** create_author and create_category *)

Lemma select_new_author k a db :
  k ∉ author_ids_of db →
  select_author_by_id k (set_authors (authors db ++ [with_author_id k a]) db) =
  Some (with_author_id k a).
Proof.
  intros Hk. unfold select_author_by_id. simpl. rewrite filter_app.
  rewrite filter_cons_True by done. rewrite filter_drops_all; [done|].
  apply Forall_forall. intros x Hx Hxk. apply Hk, list_elem_of_omap. eauto.
Qed.

Lemma select_new_category k c db :
  k ∉ category_ids_of db →
  select_category_by_id k (set_categories (categories db ++ [with_category_id k c]) db) =
  Some (with_category_id k c).
Proof.
  intros Hk. unfold select_category_by_id. simpl. rewrite filter_app.
  rewrite filter_cons_True by done. rewrite filter_drops_all; [done|].
  apply Forall_forall. intros x Hx Hxk. apply Hk, list_elem_of_omap. eauto.
Qed.

Lemma create_author_eq f l b bd w db :
  create_author f l b bd w db =
  (Returned (new_author f l b bd w db),
   set_authors (authors db ++ [new_author f l b bd w db]) db).
Proof.
  unfold create_author, get_table_session, mbind, TM_bind, new_row_object, add_row,
    commit_rows, refresh_row, read_row.
  cbn -[fresh_id select_author_by_id bool_decide]. unfold insert_author.
  cbn -[fresh_id select_author_by_id bool_decide].
  rewrite bool_decide_false by apply fresh_id_fresh.
  cbn -[fresh_id select_author_by_id].
  rewrite select_new_author by apply fresh_id_fresh. reflexivity.
Qed.

Lemma create_category_eq n d p db :
  create_category n d p db =
  if bool_decide (name_taken n db) then (Raised (UniqueViolation "categories"), db)
  else if foreign_keys db &&
          match p with Some p => bool_decide (p ∉ category_ids_of db) | None => false end
  then (Raised (ForeignKeyViolation "categories"), db)
  else (Returned (new_category n d p db),
        set_categories (categories db ++ [new_category n d p db]) db).
Proof.
  unfold create_category, get_table_session, mbind, TM_bind, new_row_object, add_row,
    commit_rows, refresh_row, read_row.
  cbn -[fresh_id select_category_by_id bool_decide]. unfold insert_category.
  cbn -[fresh_id select_category_by_id bool_decide].
  case_bool_decide as Hn.
  { by rewrite (bool_decide_true (name_taken n db)) by done. }
  rewrite (bool_decide_false (name_taken n db)) by done.
  destruct (foreign_keys db &&
            match p with Some p => bool_decide (p ∉ category_ids_of db) | None => false end);
    [reflexivity|].
  rewrite bool_decide_false by apply fresh_id_fresh.
  cbn -[fresh_id select_category_by_id].
  rewrite select_new_category by apply fresh_id_fresh. reflexivity.
Qed.





(** ** Consistency under every write *)

Lemma consistent_new_author a db :
  consistent db →
  consistent (set_authors (authors db ++ [with_author_id (fresh_id (author_ids_of db)) a]) db).
Proof.
  intros (Hpk & [Hka Hkc] & Hl & Hb).
  unfold consistent, reference_tables_keyed. split_and!; try done.
  unfold author_ids_of. simpl. rewrite omap_app. simpl.
  apply NoDup_app. split; [done|]. split; [|apply NoDup_singleton].
  intros k Hk ->%list_elem_of_singleton. by apply fresh_id_fresh in Hk.
Qed.

Lemma consistent_new_category c db :
  consistent db →
  consistent
    (set_categories
       (categories db ++ [with_category_id (fresh_id (category_ids_of db)) c]) db).
Proof.
  intros (Hpk & [Hka Hkc] & Hl & Hb).
  unfold consistent, reference_tables_keyed. split_and!; try done.
  unfold category_ids_of. simpl. rewrite omap_app. simpl.
  apply NoDup_app. split; [done|]. split; [|apply NoDup_singleton].
  intros k Hk ->%list_elem_of_singleton. by apply fresh_id_fresh in Hk.
Qed.

Lemma create_author_consistent f l b bd w db :
  consistent db → consistent (create_author f l b bd w db).2.
Proof.
  intros Hc. rewrite create_author_eq. simpl.
  by apply (consistent_new_author (mkAuthor None f l b bd w)).
Qed.

Lemma create_category_consistent n d p db :
  consistent db → consistent (create_category n d p db).2.
Proof.
  intros Hc. rewrite create_category_eq.
  case_bool_decide; [done|]. destruct (_ && _); [done|]. simpl.
  by apply (consistent_new_category (mkCategory None n d p)).
Qed.

(** X18: Each of the four writing operations leaves a consistent state
    consistent, whether it returns or raises: keys stay unique, and every
    book row and junction row still belongs to a stored content row. *)
Theorem writes_keep_consistency db (Hc : consistent db) :
  (∀ now cd bd aids cids, consistent (create_book now cd bd aids cids db).2) ∧
  (∀ now k st, consistent (update_content_status now k st db).2) ∧
  (∀ f l b bd w, consistent (create_author f l b bd w db).2) ∧
  (∀ n d p, consistent (create_category n d p db).2).
Proof.
  split_and!.
  - intros now cd bd aids cids.
    destruct (create_book now cd bd aids cids db) as [r db'] eqn:Hrun.
    by apply (create_book_consistent now cd bd aids cids db r db').
  - intros now k st.
    destruct (update_content_status now k st db) as [r db'] eqn:Hrun.
    by apply (update_content_status_consistent now k st db r db').
  - intros. by apply create_author_consistent.
  - intros. by apply create_category_consistent.
Qed.

(** ** create_book: success, refusal, and what it leaves alone *)


Lemma flush_author_links_exist k ids objs db objs' db' :
  flush_all (InsertContentAuthor ∘ mkContentAuthor k <$> ids) objs db = inr (objs', db') →
  foreign_keys db = true → ∀ i, i ∈ ids → i ∈ author_ids_of db.
Proof.
  revert db. induction ids as [|i ids IH]; intros db Hrun Hfk j Hj.
  - by apply not_elem_of_nil in Hj.
  - rewrite fmap_cons in Hrun. cbn [flush_all flush_one compose] in Hrun.
    destruct (insert_content_author _ db) as [e|db1] eqn:E; [done|].
    assert (i ∈ author_ids_of db) as Hi.
    { unfold insert_content_author in E. case_bool_decide; [done|].
      rewrite Hfk in E. simpl in E. case_bool_decide as Hor; [done|].
      destruct (decide (i ∈ author_ids_of db)); [done|]. exfalso. apply Hor. by right. }
    apply insert_content_author_inr in E as [_ ->].
    apply elem_of_cons in Hj as [->|Hj]; [done|].
    by apply (IH _ Hrun).
Qed.

Lemma flush_category_links_exist k ids objs db objs' db' :
  flush_all (InsertContentCategory ∘ mkContentCategory k <$> ids) objs db = inr (objs', db') →
  foreign_keys db = true → ∀ i, i ∈ ids → i ∈ category_ids_of db.
Proof.
  revert db. induction ids as [|i ids IH]; intros db Hrun Hfk j Hj.
  - by apply not_elem_of_nil in Hj.
  - rewrite fmap_cons in Hrun. cbn [flush_all flush_one compose] in Hrun.
    destruct (insert_content_category _ db) as [e|db1] eqn:E; [done|].
    assert (i ∈ category_ids_of db) as Hi.
    { unfold insert_content_category in E. case_bool_decide; [done|].
      rewrite Hfk in E. simpl in E. case_bool_decide as Hor; [done|].
      destruct (decide (i ∈ category_ids_of db)); [done|]. exfalso. apply Hor. by right. }
    apply insert_content_category_inr in E as [_ ->].
    apply elem_of_cons in Hj as [->|Hj]; [done|].
    by apply (IH _ Hrun).
Qed.

Lemma create_book_returned_ids_exist now cd bd aids cids db r db' :
  create_book now cd bd aids cids db = (Returned r, db') →
  foreign_keys db = true → ids_exist aids cids db.
Proof.
  intros Hok Hfk. rewrite create_book_eq in Hok. cbv zeta in Hok.
  unfold book_work in Hok. cbn [flush_all flush_one] in Hok.
  destruct (insert_book _ _) as [e|db1] eqn:Eb; [done|].
  apply insert_book_inr in Eb as (_ & kb & ->).
  rewrite flush_all_app in Hok.
  destruct (flush_all (_ <$> id_list aids) _ _) as [e|[objs2 db2]] eqn:Ea; [done|].
  destruct (flush_all (_ <$> id_list cids) _ _) as [e|[objs3 db3]] eqn:Ec; [done|].
  split.
  - by apply (flush_author_links_exist _ _ _ _ _ _ Ea).
  - apply flush_author_links in Ea as (-> & _ & _).
    by apply (flush_category_links_exist _ _ _ _ _ _ Ec).
Qed.

(** X20: [create_book] raises when an author id or a category id is given
    twice, and, where the engine checks foreign keys, when one of them is
    no key of a stored row. *)
Theorem create_book_refuses_bad_ids now cd bd aids cids db
    (Hbad : bad_ids aids cids db) :
  ∃ e db', create_book now cd bd aids cids db = (Raised e, db').
Proof.
  destruct (create_book now cd bd aids cids db) as [[r|e] db'] eqn:Hrun; [|eauto].
  exfalso. destruct Hbad as [Hdup|[Hdup|[Hfk Hmissing]]].
  - by apply create_book_returned in Hrun as (_ & _ & ? & _).
  - by apply create_book_returned in Hrun as (_ & _ & _ & ? & _).
  - by apply Hmissing, (create_book_returned_ids_exist now cd bd aids cids db r db').
Qed.

(** X21: When [create_book] raises, the rollback has undone the second
    transaction: no book row and no junction row of the call is stored. *)
Theorem failed_create_book_stores_no_book_row now cd bd aids cids db e db'
    (Hrun : create_book now cd bd aids cids db = (Raised e, db')) :
  books db' = books db ∧
  content_authors db' = content_authors db ∧
  content_categories db' = content_categories db.
Proof. by apply create_book_raised in Hrun as ->. Qed.

(** X22: Whether it returns or raises, [create_book] leaves every stored row
    in place: authors, categories and the other extension tables are
    untouched, rows are only added at the end of the content, book and
    junction tables, and every id that had a content row reads as
    before. *)
Theorem create_book_keeps_stored_rows now cd bd aids cids db r db'
    (Hrun : create_book now cd bd aids cids db = (r, db')) :
  authors db' = authors db ∧ categories db' = categories db ∧
  articles db' = articles db ∧ magazines db' = magazines db ∧
  multimedia db' = multimedia db ∧
  content db `prefix_of` content db' ∧ books db `prefix_of` books db' ∧
  content_authors db `prefix_of` content_authors db' ∧
  content_categories db `prefix_of` content_categories db' ∧
  ∀ k, ¬ no_content_row k db →
       (get_content_by_id k db').1 = (get_content_by_id k db).1.
Proof.
  assert (content db' = content db ++ [new_row now cd db] ∧
          authors db' = authors db ∧ categories db' = categories db ∧
          articles db' = articles db ∧ magazines db' = magazines db ∧
          multimedia db' = multimedia db ∧
          books db `prefix_of` books db' ∧
          content_authors db `prefix_of` content_authors db' ∧
          content_categories db `prefix_of` content_categories db')
    as (Hcontent & ? & ? & ? & ? & ? & ? & ? & ?).
  { destruct r as [r|e].
    - apply create_book_returned in Hrun as (_ & _ & _ & _ & kb & ->). simpl.
      split_and!; try done; by apply prefix_app_r.
    - apply create_book_raised in Hrun as ->. simpl. split_and!; done. }
  split_and!; try done.
  - rewrite Hcontent. by apply prefix_app_r.
  - intros k Hk. rewrite !get_content_by_id_eq. simpl.
    unfold select_content_by_id. rewrite Hcontent, filter_app.
    destruct (filter (λ c, id c = Some k) (content db)) as [|c l] eqn:E; [|done].
    exfalso. apply Hk. apply select_content_by_id_None.
    unfold select_content_by_id. by rewrite E.
Qed.

(** ** Sample data *)

Lemma store_bind_returned {A B} (m : Store A) (f : A → Store B) db a db' :
  m db = (Returned a, db') → (m ≫= f) db = f a db'.
Proof. intros H. unfold mbind, Store_bind. by rewrite H. Qed.

Lemma bind_raised_store {A B} (m : Store A) (f : A → Store B) db e db' :
  m db = (Raised e, db') → (m ≫= f) db = (Raised e, db').
Proof. intros H. unfold mbind, Store_bind. by rewrite H. Qed.

Lemma get_books_limited limit db :
  0 ≤ limit →
  get_books limit db =
  (Returned (take (Z.to_nat limit)
               (order_by_created_at_desc
                  (filter (λ c, content_type c = BOOK) (content db)))), db).
Proof.
  intros Hlimit. unfold get_books. rewrite get_session_exec_limited. unfold limit_rows.
  rewrite !bool_decide_false by lia. by rewrite andb_false_r.
Qed.

Lemma has_sample_data_eq db :
  has_sample_data db =
  (Returned (bool_decide (filter (λ c, content_type c = BOOK) (content db) ≠ [])), db).
Proof.
  unfold has_sample_data, store_try, service.
  erewrite store_bind_returned by (by apply get_books_limited).
  unfold mret, Store_ret. f_equal. f_equal.
  unfold order_by_created_at_desc.
  set (found := filter (λ c, content_type c = BOOK) (content db)).
  assert (length (merge_sort created_desc found) = length found) as Hlen
    by apply Permutation_length, merge_sort_Permutation.
  apply bool_decide_ext. rewrite length_take, Hlen.
  destruct found; simpl; [|split; [done|lia]]. split; [lia|done].
Qed.

Lemma book_stored_filter db :
  book_stored db ↔ filter (λ c, content_type c = BOOK) (content db) ≠ [].
Proof.
  split.
  - intros (c & Hc & Ht) Hnil.
    assert (c ∈ filter (λ c, content_type c = BOOK) (content db)) as Hin
      by by apply list_elem_of_filter.
    rewrite Hnil in Hin. by apply not_elem_of_nil in Hin.
  - destruct (filter _ (content db)) as [|c l] eqn:E; [done|]. intros _.
    assert (c ∈ filter (λ c, content_type c = BOOK) (content db)) as Hin
      by (rewrite E; left).
    apply list_elem_of_filter in Hin as [? ?]. by exists c.
Qed.

(** X23: [has_sample_data] raises nothing, leaves the stored state as it is,
    and answers true exactly when a book is stored, whatever its
    status. *)
Theorem has_sample_data_iff_book_stored db :
  ∃ found : bool,
    has_sample_data db = (Returned found, db) ∧
    (found = true ↔ book_stored db).
Proof.
  eexists. split; [apply has_sample_data_eq|].
  by rewrite bool_decide_eq_true, book_stored_filter.
Qed.

Lemma initialize_when_book_stored clock db :
  book_stored db → initialize_sample_data_if_needed clock db = (Returned (), db).
Proof.
  intros Hb. unfold initialize_sample_data_if_needed.
  erewrite store_bind_returned by apply has_sample_data_eq.
  rewrite bool_decide_true by (by apply book_stored_filter). reflexivity.
Qed.

(** X24: When a book is stored, [initialize_sample_data_if_needed] does
    nothing. *)
Theorem initialize_skips_when_book_stored clock db (Hbook : book_stored db) :
  initialize_sample_data_if_needed clock db = (Returned (), db).
Proof. by apply initialize_when_book_stored. Qed.

Lemma first_author_id_spec n authors k :
  k ∈ first_author_id n authors →
  ∃ a, a ∈ authors ∧ author_id a = Some k ∧ full_name a = n.
Proof.
  induction authors as [|a authors IH]; simpl; [by intros ?%not_elem_of_nil|].
  destruct (author_id a) as [j|] eqn:Hj.
  - case_bool_decide as Hn.
    + intros ->%list_elem_of_singleton. exists a. split; [left|done].
    + intros (a' & ? & ?)%IH. exists a'. split; [by right|done].
  - intros (a' & ? & ?)%IH. exists a'. split; [by right|done].
Qed.

Lemma first_category_id_spec n categories k :
  k ∈ first_category_id n categories →
  ∃ c, c ∈ categories ∧ category_id c = Some k ∧ name c = n.
Proof.
  induction categories as [|c categories IH]; simpl; [by intros ?%not_elem_of_nil|].
  destruct (category_id c) as [j|] eqn:Hj.
  - case_bool_decide as Hn.
    + intros ->%list_elem_of_singleton. exists c. split; [left|done].
    + intros (c' & ? & ?)%IH. exists c'. split; [by right|done].
  - intros (c' & ? & ?)%IH. exists c'. split; [by right|done].
Qed.

Lemma first_author_id_length n authors : (length (first_author_id n authors) ≤ 1)%nat.
Proof.
  induction authors as [|a authors IH]; simpl; [lia|].
  destruct (author_id a); [case_bool_decide|]; simpl; lia.
Qed.

Lemma first_category_id_length n categories :
  (length (first_category_id n categories) ≤ 1)%nat.
Proof.
  induction categories as [|c categories IH]; simpl; [lia|].
  destruct (category_id c); [case_bool_decide|]; simpl; lia.
Qed.

(** X25: The lookups of [create_sample_data] return, for each name in turn, at
    most one id: that of a listed author of that full name, or of a
    listed category of that name.  A name nobody has gives no id, and
    raises nothing. *)
Theorem found_ids_are_keys_of_named_rows names authors categories :
  (∀ k, k ∈ find_author_ids names authors →
        ∃ a, a ∈ authors ∧ author_id a = Some k ∧ full_name a ∈ names) ∧
  (∀ k, k ∈ find_category_ids names categories →
        ∃ c, c ∈ categories ∧ category_id c = Some k ∧ name c ∈ names) ∧
  (length (find_author_ids names authors) ≤ length names)%nat ∧
  (length (find_category_ids names categories) ≤ length names)%nat ∧
  (∀ n, (∀ a, a ∈ authors → full_name a ≠ n) → find_author_ids [n] authors = []) ∧
  (∀ n, (∀ c, c ∈ categories → name c ≠ n) → find_category_ids [n] categories = []).
Proof.
  split_and!.
  - intros k (n & Hk & Hn)%list_elem_of_bind.
    apply first_author_id_spec in Hk as (a & ? & ? & <-). eauto.
  - intros k (n & Hk & Hn)%list_elem_of_bind.
    apply first_category_id_spec in Hk as (c & ? & ? & <-). eauto.
  - unfold find_author_ids. induction names as [|n names IH]; [done|].
    rewrite bind_cons, length_app. pose proof (first_author_id_length n authors).
    simpl. lia.
  - unfold find_category_ids. induction names as [|n names IH]; [done|].
    rewrite bind_cons, length_app. pose proof (first_category_id_length n categories).
    simpl. lia.
  - intros n Hno. unfold find_author_ids. simpl. rewrite app_nil_r.
    destruct (first_author_id n authors) as [|k l] eqn:E; [done|].
    destruct (first_author_id_spec n authors k) as (a & Ha & _ & Hn);
      [rewrite E; left|]. by destruct (Hno a Ha).
  - intros n Hno. unfold find_category_ids. simpl. rewrite app_nil_r.
    destruct (first_category_id n categories) as [|k l] eqn:E; [done|].
    destruct (first_category_id_spec n categories k) as (c & Hc & _ & Hn);
      [rewrite E; left|]. by destruct (Hno c Hc).
Qed.

(** *** A start on a store that has the category but no book *)

Lemma each_create_author (specs : list (string * string * string * datetime)) db :
  ∃ new_authors,
    each (λ '(f, l, b, born), service (create_author f l b (Some born) None)) specs db =
    (Returned new_authors, set_authors (authors db ++ new_authors) db) ∧
    length new_authors = length specs.
Proof.
  revert db. induction specs as [|[[[f l] b] born] specs IH]; intros db.
  - exists []. split; [|done]. simpl. rewrite app_nil_r. by destruct db.
  - cbn [each].
    erewrite store_bind_returned by (unfold service; apply create_author_eq).
    set (a := new_author f l b (Some born) None db).
    destruct (IH (set_authors (authors db ++ [a]) db)) as (rest & Hrest & Hlen).
    erewrite store_bind_returned by exact Hrest.
    exists (a :: rest). split; [|by rewrite !length_cons, Hlen].
    unfold mret, Store_ret. simpl. by rewrite <- app_assoc.
Qed.

Lemma create_sample_data_name_taken clock db :
  name_taken "Fiction" db →
  ∃ new_authors,
    create_sample_data clock db =
      (Returned None, set_authors (authors db ++ new_authors) db) ∧
    length new_authors = 5%nat.
Proof.
  intros Hname.
  destruct (each_create_author sample_authors db) as (new_authors & Heach & Hlen).
  exists new_authors. split; [|done].
  unfold create_sample_data, store_try.
  erewrite store_bind_returned by exact Heach.
  unfold sample_categories. cbn [each].
  erewrite (bind_raised_store _ _ _ (UniqueViolation "categories")); [done|].
  erewrite (bind_raised_store _ _ _ (UniqueViolation "categories")); [done|].
  unfold service. rewrite create_category_eq.
  by rewrite bool_decide_true.
Qed.

(** X26: On a store that holds a category named Fiction and no book,
    [initialize_sample_data_if_needed] stores the five sample authors and
    then stops at the first category: it returns without an error, no
    category and no book is added, and the authors stay.  The state it
    leaves is again such a store, so the next call adds five more. *)
Theorem start_with_taken_name_adds_authors clock db
    (Hname : name_taken "Fiction" db) (Hnobook : ¬ book_stored db) :
  ∃ new_authors db',
    initialize_sample_data_if_needed clock db = (Returned (), db') ∧
    db' = set_authors (authors db ++ new_authors) db ∧
    length new_authors = 5%nat ∧
    name_taken "Fiction" db' ∧ ¬ book_stored db'.
Proof.
  destruct (create_sample_data_name_taken clock db Hname) as (new_authors & Hrun & Hlen).
  exists new_authors, (set_authors (authors db ++ new_authors) db).
  split; [|done].
  unfold initialize_sample_data_if_needed.
  erewrite store_bind_returned by apply has_sample_data_eq.
  rewrite bool_decide_false by (by rewrite <- book_stored_filter).
  cbn [negb]. by erewrite store_bind_returned by exact Hrun.
Qed.

(** X27: On a store without any row, on any engine and whatever the clock
    reads, [create_sample_data] stores five authors, seven categories and
    eight books with a book row each, eight author links and twenty
    category links (the one category name that is not among the seven is
    passed over); after that [initialize_sample_data_if_needed] does
    nothing. *)
Theorem sample_data_on_an_empty_store clock fk sl :
  ∃ made db',
    create_sample_data clock (empty_store fk sl) = (Returned (Some made), db') ∧
    length (created_authors made) = 5%nat ∧
    length (created_categories made) = 7%nat ∧
    length (created_books made) = 8%nat ∧
    length (authors db') = 5%nat ∧ length (categories db') = 7%nat ∧
    length (content db') = 8%nat ∧ length (books db') = 8%nat ∧
    length (content_authors db') = 8%nat ∧
    length (content_categories db') = 20%nat ∧
    ∀ clock', initialize_sample_data_if_needed clock' db' = (Returned (), db').
Proof.
  destruct fk, sl; eexists _, _; (split; [vm_compute; reflexivity|]);
    do 9 (split; [reflexivity|]); intros clock';
    apply initialize_when_book_stored; eexists; (split; [left|reflexivity]).
Qed.

(** ** The tags of the book form *)

Lemma lstrip_spaces s : ∃ pre, s = pre ++ lstrip s ∧ Forall (λ c, is_space c = true) pre.
Proof.
  induction s as [|c s (pre & Hs & Hpre)]; [by exists []|]. simpl.
  destruct (is_space c) eqn:Hc.
  - exists (c :: pre). split; [by rewrite Hs at 1|by constructor].
  - by exists [].
Qed.

Lemma lstrip_head s c : head (lstrip s) = Some c → is_space c = false.
Proof.
  induction s as [|d s IH]; [done|]. simpl.
  destruct (is_space d) eqn:Hd; [done|]. by intros [= <-].
Qed.

Lemma lstrip_fixed s : (∀ c, head s = Some c → is_space c = false) → lstrip s = s.
Proof. destruct s as [|c s]; [done|]. intros H. simpl. by rewrite (H c). Qed.

Lemma lstrip_all_spaces s : Forall (λ c, is_space c = true) s → lstrip s = [].
Proof. induction 1 as [|c s Hc _ IH]; [done|]. simpl. by rewrite Hc. Qed.

Lemma strip_trimmed s : trimmed (strip s).
Proof.
  unfold strip, rstrip. set (q := lstrip s).
  destruct (lstrip_spaces (reverse q)) as (pre & Hq & _).
  set (r := lstrip (reverse q)) in *. split.
  - intros c Hc. apply (lstrip_head s). fold q.
    assert (q = reverse r ++ reverse pre) as Hq'.
    { by rewrite <- reverse_app, <- Hq, reverse_involutive. }
    rewrite Hq'. by destruct (reverse r).
  - intros c. rewrite last_reverse. apply lstrip_head.
Qed.

Lemma trimmed_strip l : trimmed l → strip l = l.
Proof.
  intros [Hhead Hlast]. unfold strip, rstrip. rewrite (lstrip_fixed l) by done.
  rewrite lstrip_fixed; [apply reverse_involutive|].
  intros c. rewrite head_reverse. apply Hlast.
Qed.

Lemma elem_of_lstrip s c : c ∈ lstrip s → c ∈ s.
Proof.
  destruct (lstrip_spaces s) as (pre & Hs & _). intros Hc.
  rewrite Hs. apply elem_of_app. by right.
Qed.

Lemma elem_of_strip s c : c ∈ strip s → c ∈ s.
Proof.
  unfold strip, rstrip. intros Hc.
  apply elem_of_reverse, elem_of_lstrip in Hc.
  apply elem_of_reverse, elem_of_lstrip in Hc. done.
Qed.

Lemma split_not_nil sep s : split sep s ≠ [].
Proof.
  destruct s as [|c s]; [done|]. simpl. case_bool_decide; [done|].
  by destruct (split sep s).
Qed.

Lemma elem_of_split sep s piece c :
  piece ∈ split sep s → c ∈ piece → c ∈ s ∧ c ≠ sep.
Proof.
  revert piece. induction s as [|d s IH]; intros piece; simpl.
  - intros ->%list_elem_of_singleton ?%not_elem_of_nil. done.
  - case_bool_decide as Hd.
    + intros [->|Hp]%elem_of_cons Hc; [by apply not_elem_of_nil in Hc|].
      destruct (IH piece Hp Hc). split; [by right|done].
    + destruct (split sep s) as [|p ps] eqn:E.
      * intros ->%list_elem_of_singleton ->%list_elem_of_singleton. split; [left|done].
      * intros [->|Hp]%elem_of_cons Hc.
        -- apply elem_of_cons in Hc as [->|Hc]; [split; [left|done]|].
           destruct (IH p) as [? ?]; [left|done|]. split; [by right|done].
        -- destruct (IH piece) as [? ?]; [by right|done|]. split; [by right|done].
Qed.

(** X28: Every tag the form parses is not empty, has no comma in it and no
    white space at either end. *)
Theorem parsed_tags_are_clean value t :
  t ∈ parse_tags value → clean_tag t.
Proof.
  unfold parse_tags. destruct (truthy value); [|by intros ?%not_elem_of_nil].
  intros (p & -> & Hp)%list_elem_of_fmap.
  apply list_elem_of_filter in Hp as [Hne Hp].
  apply list_elem_of_fmap in Hp as (piece & -> & Hpiece).
  unfold clean_tag. rewrite list_ascii_of_string_of_list_ascii. cbv zeta.
  split; [done|]. split; [|apply strip_trimmed].
  intros Hc%elem_of_strip. by destruct (elem_of_split comma _ piece comma Hpiece Hc).
Qed.

(** X29: A line of nothing but white space and commas gives no tag. *)
Theorem blank_line_has_no_tags value (Hblank : blank_line value) :
  parse_tags value = [].
Proof.
  unfold parse_tags. destruct (truthy value); [|done].
  rewrite filter_drops_all; [done|].
  apply Forall_fmap, Forall_forall. intros piece Hpiece. simpl. intros Hne. apply Hne.
  unfold strip. rewrite lstrip_all_spaces; [done|].
  apply Forall_forall. intros c Hc.
  destruct (elem_of_split comma _ piece c Hpiece Hc) as [Hin Hsep].
  by destruct (Hblank c Hin).
Qed.

Lemma split_no_sep sep a : sep ∉ a → split sep a = [a].
Proof.
  induction a as [|c a IH]; [done|]. intros [Hc Ha]%not_elem_of_cons. simpl.
  rewrite bool_decide_false by done. by rewrite IH.
Qed.

Lemma split_app_sep sep a b : sep ∉ a → split sep (a ++ sep :: b) = a :: split sep b.
Proof.
  induction a as [|c a IH]; intros Ha; simpl.
  - by rewrite bool_decide_true.
  - apply not_elem_of_cons in Ha as [Hc Ha].
    rewrite bool_decide_false by done. by rewrite IH.
Qed.

Lemma strip_split_space c s :
  is_space c = true → c ≠ comma →
  strip <$> split comma (c :: s) = strip <$> split comma s.
Proof.
  intros Hc Hne. simpl. rewrite bool_decide_false by done.
  destruct (split comma s) as [|p ps] eqn:E; [by apply split_not_nil in E|].
  rewrite !fmap_cons. f_equal. unfold strip. simpl. by rewrite Hc.
Qed.

Lemma strip_joined_tags (tags : list string) :
  Forall clean_tag tags → tags ≠ [] →
  strip <$> split comma (list_ascii_of_string (String.concat ", " tags)) =
  list_ascii_of_string <$> tags.
Proof.
  induction 1 as [|t ts (Hne & Hcomma & Htrim) Hts IH]; [done|]. intros _.
  destruct ts as [|t2 ts].
  - simpl. rewrite split_no_sep by done. simpl. by rewrite trimmed_strip.
  - change (String.concat ", " (t :: t2 :: ts))
      with (t ++ ", " ++ String.concat ", " (t2 :: ts))%string.
    rewrite !list_ascii_of_string_app.
    change (list_ascii_of_string ", ") with [comma; " "%char].
    cbn [app]. rewrite split_app_sep by done.
    rewrite fmap_cons, strip_split_space, IH by done.
    by rewrite trimmed_strip.
Qed.

(** X30: Tags written on one line with a comma and a space between them are
    read back as they were written, when each of them is not empty, has
    no comma in it and no white space at either end. *)
Theorem parse_tags_of_joined_tags (tags : list string)
    (Hclean : Forall clean_tag tags) :
  parse_tags (String.concat ", " tags) = tags.
Proof.
  destruct tags as [|t ts]; [done|].
  assert (Hsplit := strip_joined_tags (t :: ts) Hclean ltac:(done)).
  unfold parse_tags.
  assert (truthy (String.concat ", " (t :: ts)) = true) as ->.
  { destruct (String.concat ", " (t :: ts)) eqn:E; [|done].
    simpl in Hsplit. injection Hsplit as Ht _.
    apply Forall_cons in Hclean as [(Hne & _) _]. by destruct Hne. }
  rewrite Hsplit. rewrite filter_keeps_all.
  - rewrite <- list_fmap_compose. rewrite <- (list_fmap_id (t :: ts)) at 2.
    apply list_fmap_ext. intros i x _. simpl.
    apply string_of_list_ascii_of_string.
  - apply Forall_fmap. eapply Forall_impl; [exact Hclean|].
    intros x (Hne & _). done.
Qed.

(** ** The further properties at the example data *)




Lemma search_ignores_case_witness :
  same_letters "PYTHON" "python" ∧
  search_content "PYTHON" None true 50 python_shelf =
    search_content "python" None true 50 python_shelf.
Proof.
  assert (same_letters "PYTHON" "python") as Hsame by reflexivity.
  split; [exact Hsame|].
  destruct (search_ignores_case "PYTHON" "python" Hsame) as [Hcontent _].
  apply Hcontent.
Defined.

Lemma search_results_pass_filters_witness :
  search_content "python" None true 1 python_shelf =
    (Returned [python_programming], python_shelf) ∧
  status python_programming = AVAILABLE.
Proof.
  assert (search_content "python" None true 1 python_shelf =
          (Returned [python_programming], python_shelf)) as Hrun by by vm_compute.
  split; [exact Hrun|].
  destruct (search_results_pass_filters _ _ _ _ _ _ _ Hrun) as [_ Hpass].
  destruct (Hpass python_programming) as (_ & _ & Ha); [left|]. by apply Ha.
Defined.

Lemma unavailable_item_not_searched_witness :
  CHECKED_OUT ≠ AVAILABLE ∧
  update_content_status 2000 1 CHECKED_OUT python_shelf =
    (Returned true, python_shelf_checked_out) ∧
  search_content "" None true 50 python_shelf_checked_out =
    (Returned [python_programming], python_shelf_checked_out) ∧
  id python_programming ≠ Some 1.
Proof.
  assert (CHECKED_OUT ≠ AVAILABLE) as Hst by done.
  assert (update_content_status 2000 1 CHECKED_OUT python_shelf =
          (Returned true, python_shelf_checked_out)) as Hupd by by vm_compute.
  assert (search_content "" None true 50 python_shelf_checked_out =
          (Returned [python_programming], python_shelf_checked_out)) as Hrun
    by by vm_compute.
  split; [exact Hst|]. split; [exact Hupd|]. split; [exact Hrun|].
  apply (unavailable_item_not_searched _ _ _ _ _ _ _ _ _ _ Hst Hupd Hrun). left.
Defined.


Lemma count_follows_status_update_witness :
  primary_key_unique python_shelf ∧ python_basics ∈ content python_shelf ∧
  id python_basics = Some 1 ∧
  update_content_status 2000 1 CHECKED_OUT python_shelf =
    (Returned true, python_shelf_checked_out) ∧
  ∃ counts counts' : gmap ContentType Z,
    get_available_content_count python_shelf = (Returned counts, python_shelf) ∧
    get_available_content_count python_shelf_checked_out =
      (Returned counts', python_shelf_checked_out) ∧
    counts !! BOOK = Some 2 ∧ counts' !! BOOK = Some 1.
Proof.
  assert (primary_key_unique python_shelf) as Hpk by compute_done.
  assert (python_basics ∈ content python_shelf) as Hc by left.
  assert (id python_basics = Some 1) as Hk by reflexivity.
  assert (update_content_status 2000 1 CHECKED_OUT python_shelf =
          (Returned true, python_shelf_checked_out)) as Hupd by by vm_compute.
  split; [exact Hpk|]. split; [exact Hc|]. split; [exact Hk|]. split; [exact Hupd|].
  destruct (count_follows_status_update 2000 1 CHECKED_OUT python_basics
              python_shelf python_shelf_checked_out Hpk Hc Hk Hupd)
    as (counts & counts' & Hrun & Hrun' & Hcounts).
  exists counts, counts'. split; [exact Hrun|]. split; [exact Hrun'|].
  destruct (Hcounts BOOK) as (n & Hn & Hn').
  destruct (get_available_content_count_lookup python_shelf BOOK) as (m & Hm & Hl).
  rewrite Hrun in Hm. injection Hm as <-.
  rewrite Hn in Hl. injection Hl as ->.
  split; [exact Hn|exact Hn'].
Defined.






Lemma writes_keep_consistency_witness :
  consistent library ∧
  consistent (create_book 1000 pride egerton (Some [1; 1]) None library).2.
Proof.
  split; [exact library_consistent|].
  destruct (writes_keep_consistency library library_consistent) as [Hbook _].
  apply Hbook.
Defined.



Lemma create_book_refuses_bad_ids_witness :
  bad_ids (Some [1; 1]) (Some [1]) library ∧
  ∃ e db', create_book 1000 pride egerton (Some [1; 1]) (Some [1]) library =
           (Raised e, db').
Proof.
  assert (bad_ids (Some [1; 1]) (Some [1]) library) as Hbad.
  { left. intros Hnd. apply NoDup_cons in Hnd as [Hin _]. apply Hin. left. }
  split; [exact Hbad|].
  exact (create_book_refuses_bad_ids 1000 pride egerton _ _ library Hbad).
Defined.

Lemma library_refusal :
  create_book 1000 pride egerton (Some [1; 1]) (Some [1]) library =
  (Raised (UniqueViolation "content_authors"), library_after_refusal).
Proof. by vm_compute. Qed.

Lemma failed_create_book_stores_no_book_row_witness :
  create_book 1000 pride egerton (Some [1; 1]) (Some [1]) library =
    (Raised (UniqueViolation "content_authors"), library_after_refusal) ∧
  books library_after_refusal = [].
Proof.
  split; [exact library_refusal|].
  by destruct (failed_create_book_stores_no_book_row _ _ _ _ _ _ _ _ library_refusal)
    as [-> _].
Defined.

Lemma create_book_keeps_stored_rows_witness :
  create_book 1000 pride egerton (Some [1]) (Some [1]) library =
    (Returned (Some pride_row), library_with_pride) ∧
  authors library_with_pride = [jane_austen].
Proof.
  split; [exact library_with_pride_created|].
  by destruct (create_book_keeps_stored_rows _ _ _ _ _ _ _ _ library_with_pride_created)
    as [-> _].
Defined.

Lemma pride_is_stored : book_stored library_with_pride.
Proof. exists pride_row. split; [left|reflexivity]. Qed.

Lemma initialize_skips_when_book_stored_witness :
  book_stored library_with_pride ∧
  initialize_sample_data_if_needed (λ _, 0) library_with_pride =
    (Returned (), library_with_pride).
Proof.
  split; [exact pride_is_stored|].
  exact (initialize_skips_when_book_stored _ library_with_pride pride_is_stored).
Defined.

Lemma only_fiction_has_no_book : ¬ book_stored only_fiction.
Proof. intros (c & Hc & _). by apply not_elem_of_nil in Hc. Qed.

Lemma start_with_taken_name_adds_authors_witness :
  name_taken "Fiction" only_fiction ∧ ¬ book_stored only_fiction ∧
  ∃ db',
    initialize_sample_data_if_needed (λ _, 0) only_fiction = (Returned (), db') ∧
    length (authors db') = 5%nat ∧ categories db' = [fiction].
Proof.
  assert (name_taken "Fiction" only_fiction) as Hname by left.
  split; [exact Hname|]. split; [exact only_fiction_has_no_book|].
  destruct (start_with_taken_name_adds_authors (λ _, 0) only_fiction Hname
              only_fiction_has_no_book)
    as (new_authors & db' & Hrun & -> & Hlen & _).
  eexists. split; [exact Hrun|]. split; [|reflexivity].
  simpl. exact Hlen.
Defined.

Lemma parsed_tags_are_clean_witness :
  "sci fi"%string ∈ parse_tags " fiction , sci fi ,, " ∧ clean_tag "sci fi".
Proof.
  assert ("sci fi"%string ∈ parse_tags " fiction , sci fi ,, ") as Hin
    by (right; left).
  split; [exact Hin|]. exact (parsed_tags_are_clean _ _ Hin).
Defined.

Lemma blank_line_has_no_tags_witness :
  blank_line " , ," ∧ parse_tags " , ," = [].
Proof.
  assert (blank_line " , ,") as Hblank.
  { intros c Hc. simpl in Hc.
    repeat (apply elem_of_cons in Hc as [->|Hc]; [by (left + right)|]).
    by apply not_elem_of_nil in Hc. }
  split; [exact Hblank|]. exact (blank_line_has_no_tags _ Hblank).
Defined.

Lemma parse_tags_of_joined_tags_witness :
  Forall clean_tag ["fiction"; "sci fi"]%string ∧
  parse_tags "fiction, sci fi" = ["fiction"; "sci fi"]%string.
Proof.
  assert (Forall clean_tag ["fiction"; "sci fi"]%string) as Hclean.
  { repeat constructor; try done; try compute_done; by intros c [= <-]. }
  split; [exact Hclean|]. exact (parse_tags_of_joined_tags _ Hclean).
Defined.
